(** * Telegram email-check bot: the front end (bot.py) and the two
      classification services (bot.py's embedded one and main.py)

    A shallow embedding of the Python sources and the properties of the
    request/response contract between the conversational front end and the
    classification service.

    Conventions of the embedding.
    - A Python [str] is a Rocq [string] holding its UTF-8 encoding.  ASCII
      text is therefore written as it is in the source; the substring test
      [x in s], [str.strip], [str.splitlines] and [str.replace] are given on
      the encoded bytes (UTF-8 is self-synchronising, so matching an encoded
      character inside an encoded string is matching the character).
    - A Python [dict] whose iteration order is observable (the result
      mapping, JSON objects) is an association list in insertion order with
      the update-in-place behaviour of [d[k] = v].
    - The process environment, the session flags and the set built by
      [parse_emails] are stdpp finite maps and sets.
    - Handlers that talk to Telegram or to the service run in a small
      state-and-exception monad over a [world]; what the outside answers
      (Telegram, the HTTP service, [str(e)]) is a parameter. *)

From Stdlib Require Import Ascii String ZArith Lia.
From stdpp Require Import gmap strings list pretty.

Open Scope string_scope.

(* ===================================================================== *)
(** * Python strings *)
(* ===================================================================== *)

Module Str.

(** The string whose bytes are the given numbers (for characters outside
    ASCII, their UTF-8 encoding). *)
Fixpoint utf8 (bs : list nat) : string :=
  match bs with
  | [] => ""
  | b :: bs' => String (ascii_of_nat b) (utf8 bs')
  end.

(** The line feed, as a character and as a string. *)
Definition LF : ascii := "010"%char.
Definition nl : string := String LF "".

(** The characters (bytes) of a string, as a list. *)
Definition chars (s : string) : list ascii := list_ascii_of_string s.

(** [strip_prefix w s] is the rest of [s] after its prefix [w], if [w] is
    a prefix of [s]. *)
Fixpoint strip_prefix (w s : string) : option string :=
  match w with
  | "" => Some s
  | String a w' =>
      match s with
      | "" => None
      | String b s' => if Ascii.eqb a b then strip_prefix w' s' else None
      end
  end.

(** The first entry of [table] that is a prefix of [s], with the rest of
    [s] after it. *)
Fixpoint first_match (table : list string) (s : string) : option (string * string) :=
  match table with
  | [] => None
  | w :: table' =>
      match strip_prefix w s with
      | Some r => Some (w, r)
      | None => first_match table' s
      end
  end.

(** [needle in hay]: the substring test. *)
Fixpoint str_in (needle hay : string) : bool :=
  match strip_prefix needle hay with
  | Some _ => true
  | None =>
      match hay with
      | "" => false
      | String _ r => str_in needle r
      end
  end.

(** [s.replace(old, new)] for one-character [old] and [new]. *)
Fixpoint replace_char (old new : ascii) (s : string) : string :=
  match s with
  | "" => ""
  | String c r =>
      String (if Ascii.eqb c old then new else c) (replace_char old new r)
  end.

(** The line boundaries of [str.splitlines]: CR LF (tried first, so that it
    counts as one boundary), LF, CR, VT, FF, FS, GS, RS, NEL (U+0085), LINE
    SEPARATOR (U+2028) and PARAGRAPH SEPARATOR (U+2029). *)
Definition linebreaks : list string :=
  [ utf8 [13; 10]; utf8 [10]; utf8 [13]; utf8 [11]; utf8 [12];
    utf8 [28]; utf8 [29]; utf8 [30];
    utf8 [194; 133]; utf8 [226; 128; 168]; utf8 [226; 128; 169] ].

(** The characters removed by [str.strip()] (those with [str.isspace]):
    U+0009..U+000D, U+001C..U+001F, U+0020, U+0085, U+00A0, U+1680,
    U+2000..U+200A, U+2028, U+2029, U+202F, U+205F, U+3000. *)
Definition whitespace : list string :=
  [ utf8 [9]; utf8 [10]; utf8 [11]; utf8 [12]; utf8 [13];
    utf8 [28]; utf8 [29]; utf8 [30]; utf8 [31]; utf8 [32];
    utf8 [194; 133]; utf8 [194; 160];
    utf8 [225; 154; 128];
    utf8 [226; 128; 128]; utf8 [226; 128; 129]; utf8 [226; 128; 130];
    utf8 [226; 128; 131]; utf8 [226; 128; 132]; utf8 [226; 128; 133];
    utf8 [226; 128; 134]; utf8 [226; 128; 135]; utf8 [226; 128; 136];
    utf8 [226; 128; 137]; utf8 [226; 128; 138];
    utf8 [226; 128; 168]; utf8 [226; 128; 169]; utf8 [226; 128; 175];
    utf8 [226; 129; 159];
    utf8 [227; 128; 128] ].

(** [splitlines_go skip cur s]: the scan of [str.splitlines].  [cur] is the
    line read so far; [skip] counts the bytes of a boundary that are still to
    be passed over.  A last line is produced only when it is not empty. *)
Fixpoint splitlines_go (skip : nat) (cur s : string) : list string :=
  match s with
  | "" => if String.eqb cur "" then [] else [cur]
  | String c r =>
      match skip with
      | S k => splitlines_go k cur r
      | O =>
          match first_match linebreaks s with
          | Some (w, _) => cur :: splitlines_go (String.length w - 1) "" r
          | None => splitlines_go 0 (cur +:+ String c "") r
          end
      end
  end.

Definition splitlines (s : string) : list string := splitlines_go 0 "" s.

(** Removing the leading entries of [table], with fuel [n]; the length of
    the string is enough fuel, since every entry of the tables is non-empty
    ([lstrip_fuel_enough] below). *)
Fixpoint lstrip_fuel (table : list string) (n : nat) (s : string) : string :=
  match n with
  | O => s
  | S n' =>
      match first_match table s with
      | Some (_, r) => lstrip_fuel table n' r
      | None => s
      end
  end.

Definition lstrip_by (table : list string) (s : string) : string :=
  lstrip_fuel table (String.length s) s.

Definition lstrip (s : string) : string := lstrip_by whitespace s.

(** Trailing whitespace is leading whitespace of the reversed string, with
    the encodings reversed. *)
Definition rstrip (s : string) : string :=
  String.rev (lstrip_by (map String.rev whitespace) (String.rev s)).

(** [s.strip()] *)
Definition strip (s : string) : string := rstrip (lstrip s).

(** [sep.join(parts)] *)
Fixpoint join (sep : string) (parts : list string) : string :=
  match parts with
  | [] => ""
  | [p] => p
  | p :: ps => p +:+ sep +:+ join sep ps
  end.

(** Truth value of a [str]: the empty string is false. *)
Definition truthy (s : string) : bool := negb (String.eqb s "").

(** The ASCII letters of [s] in lower case, other bytes unchanged: what
    [str.lower] does on ASCII text. *)
Definition ascii_lower_char (c : ascii) : ascii :=
  let n := nat_of_ascii c in
  if (65 <=? n)%nat && (n <=? 90)%nat then ascii_of_nat (n + 32) else c.

Fixpoint ascii_lower (s : string) : string :=
  match s with
  | "" => ""
  | String c r => String (ascii_lower_char c) (ascii_lower r)
  end.

Fixpoint is_ascii (s : string) : bool :=
  match s with
  | "" => true
  | String c r => (nat_of_ascii c <? 128)%nat && is_ascii r
  end.

End Str.

(* ===================================================================== *)
(** * Python values shared by the services and the front end *)
(* ===================================================================== *)

(** A value produced by [json.loads] ([request.json()], [response.json()]).
    A float is kept as its literal; an object is a [dict] in the order of
    its keys. *)
#[warnings="-register-all"]
Inductive json : Type :=
  | JNull
  | JBool (b : bool)
  | JInt (z : Z)
  | JFloat (literal : string)
  | JStr (s : string)
  | JList (l : list json)
  | JDict (items : list (string * json)).

(** The exceptions that occur in the two programs. *)
Inductive exn : Type :=
  | JSONDecodeError                                 (* body is not JSON *)
  | AttributeError                                  (* [.get] / [.items] on a non-dict *)
  | TypeError                                       (* not iterable, not hashable *)
  | HTTPException (status_code : Z) (detail : string) (* fastapi *)
  | RequestValidationError                          (* fastapi: the body does not fit the model *)
  | RequestException (detail : string)              (* requests: connection error, timeout *)
  | HTTPError (status_code : Z)                     (* requests: [raise_for_status] *)
  | TelegramError (detail : string)                 (* a Telegram API call failed *)
  | CancelledError.                                 (* asyncio; not an [Exception] *)

(** [isinstance(e, Exception)]: what [except Exception] catches. *)
Definition is_Exception (e : exn) : bool :=
  match e with
  | CancelledError => false
  | _ => true
  end.

Module Dict.

(** [d.get(k)] on a dict in insertion order. *)
Fixpoint get {V : Type} (d : list (string * V)) (k : string) : option V :=
  match d with
  | [] => None
  | (k', v) :: d' => if String.eqb k' k then Some v else get d' k
  end.

(** [d[k] = v]: an existing key keeps its place and takes the new value, a
    new key goes to the end. *)
Fixpoint set {V : Type} (d : list (string * V)) (k : string) (v : V) : list (string * V) :=
  match d with
  | [] => [(k, v)]
  | (k', v') :: d' =>
      if String.eqb k' k then (k', v) :: d' else (k', v') :: set d' k v
  end.

Definition keys {V : Type} (d : list (string * V)) : list string := map fst d.

End Dict.

(** The result mapping of [/check_emails]: email to status label. *)
Definition pydict : Type := list (string * string).

(** What a request handler does: return a value (which FastAPI sends as JSON
    with status 200), return an explicit [JSONResponse], or raise. *)
Inductive response : Type :=
  | Return (results : pydict)
  | JSONResponse (content : pydict) (status_code : Z)
  | Raise (e : exn).

(** The HTTP status the framework sends for a handler outcome: 200 for a
    returned value, the given code for a [JSONResponse] or an
    [HTTPException], 422 for a body that failed validation, 500 for any
    other exception. *)
Definition status_of (r : response) : Z :=
  match r with
  | Return _ => 200
  | JSONResponse _ code => code
  | Raise (HTTPException code _) => code
  | Raise RequestValidationError => 422
  | Raise _ => 500
  end.

(** The classification mapping a response carries: only a returned result
    mapping is one. *)
Definition classification_of (r : response) : option pydict :=
  match r with
  | Return results => Some results
  | _ => None
  end.

(** [os.getenv(name) or default]: the default also replaces an empty value. *)
Definition getenv_or (environ : gmap string string) (name default : string) : string :=
  match environ !! name with
  | Some v => if Str.truthy v then v else default
  | None => default
  end.

(** Request headers, names in lower case as the server delivers them;
    [headers.get(name)] is the first value under that name. *)
Definition headers : Type := list (string * string).

(* ===================================================================== *)
(** * main.py: the stand-alone service (fixed-dictionary strategy) *)
(* ===================================================================== *)

Module Main.

Definition API_KEY (environ : gmap string string) : string :=
  getenv_or environ "API_KEY" "my_secure_api_key_123".

(** [class EmailCheckRequest(BaseModel): emails: list[str]] *)
Record EmailCheckRequest : Type := { emails : list string }.

Definition SIMULATED_DATABASE : pydict :=
  [ ("active@example.com", "yes");
    ("flagged@example.com", "no");
    ("blocked@example.com", "captcha");
    ("error@example.com", "error") ].

Definition status_check : pydict := [("status", "ok")].

(** The validation of the request body against [EmailCheckRequest], which
    FastAPI does for the parameter [payload: EmailCheckRequest] before it
    calls the handler: the body has to be a JSON object whose ["emails"] is
    a list of strings (other fields are ignored). *)
Fixpoint strings (l : list json) : option (list string) :=
  match l with
  | [] => Some []
  | JStr s :: rest =>
      match strings rest with
      | Some ss => Some (s :: ss)
      | None => None
      end
  | _ :: _ => None
  end.

Definition validate (body : option json) : option EmailCheckRequest :=
  match body with
  | Some (JDict data) =>
      match Dict.get data "emails" with
      | Some (JList l) =>
          match strings l with
          | Some ss => Some {| emails := ss |}
          | None => None
          end
      | _ => None
      end
  | _ => None
  end.

Section CheckEmails.

(** [str.lower], of which only the behaviour on ASCII text is used. *)
Variable str_lower : string -> string.

(** The loop of [check_emails]:
    [results[email] = SIMULATED_DATABASE.get(email.lower(), "no")] *)
Fixpoint check_loop (emails : list string) (results : pydict) : pydict :=
  match emails with
  | [] => results
  | email :: rest =>
      check_loop rest
        (Dict.set results email
           (default "no" (Dict.get SIMULATED_DATABASE (str_lower email))))
  end.

Definition check_emails (environ : gmap string string)
    (request_headers : headers) (payload : EmailCheckRequest) : response :=
  let api_key := Dict.get request_headers "x-api-key" in
  if negb (bool_decide (api_key = Some (API_KEY environ))) then
    Raise (HTTPException 403 "Invalid API key")
  else
    Return (check_loop (emails payload) []).

(** The route [@app.post("/check_emails")]: validation of the body, then
    the handler. *)
Definition post_check_emails (environ : gmap string string)
    (request_headers : headers) (body : option json) : response :=
  match validate body with
  | None => Raise RequestValidationError
  | Some payload => check_emails environ request_headers payload
  end.

End CheckEmails.

End Main.

(* ===================================================================== *)
(** * bot.py: the embedded service (substring strategy) and the front end *)
(* ===================================================================== *)

Module Bot.

Definition TELEGRAM_BOT_TOKEN (environ : gmap string string) : string :=
  getenv_or environ "TELEGRAM_BOT_TOKEN" "your_telegram_bot_token".

Definition API_KEY (environ : gmap string string) : string :=
  getenv_or environ "API_KEY" "my_secure_api_key_123".

(** ** The FastAPI backend *)

Definition status : pydict := [("status", "ok")].

(** The characters of a [str], each as a one-character string: a byte that
    is a UTF-8 continuation byte (128..191) belongs to the character before
    it. *)
Definition continues (s : string) : bool :=
  match s with
  | "" => false
  | String c _ => (128 <=? nat_of_ascii c)%nat && (nat_of_ascii c <? 192)%nat
  end.

Fixpoint characters (s : string) : list string :=
  match s with
  | "" => []
  | String c r =>
      match characters r with
      | p :: ps => if continues r then String c p :: ps else String c "" :: p :: ps
      | [] => [String c ""]
      end
  end.

(** What [for email in emails] iterates over: the elements of a list, the
    characters of a string, the keys of a dict; other values are not
    iterable. *)
Definition iterate (emails : json) : exn + list json :=
  match emails with
  | JList l => inr l
  | JStr s => inr (map JStr (characters s))
  | JDict items => inr (map (fun kv => JStr (fst kv)) items)
  | _ => inl TypeError
  end.

(** The rule applied to one email string:
<<
        if "flag" in email:       results[email] = "yes"
        elif "active" in email:   results[email] = "no"
        else:                     results[email] = "error"
>> *)
Definition classify (email : string) : string :=
  if Str.str_in "flag" email then "yes"
  else if Str.str_in "active" email then "no"
  else "error".

(** The loop of [check_emails].  An element that is not a string raises
    [TypeError]: for a number, a boolean or null at ["flag" in email], for a
    list or a dict at [results[email] = ...] (not hashable). *)
Fixpoint check_loop (emails : list json) (results : pydict) : exn + pydict :=
  match emails with
  | [] => inr results
  | JStr email :: rest => check_loop rest (Dict.set results email (classify email))
  | _ :: _ => inl TypeError
  end.

(** [check_emails]; [body] is the request body as parsed by
    [request.json()], [None] when it is not JSON. *)
Definition check_emails (environ : gmap string string)
    (request_headers : headers) (body : option json) : response :=
  if negb (bool_decide (Dict.get request_headers "x-api-key" = Some (API_KEY environ))) then
    JSONResponse [("error", "Unauthorized")] 401
  else
    match body with
    | None => Raise JSONDecodeError
    | Some (JDict data) =>
        let emails := default (JList []) (Dict.get data "emails") in
        match iterate emails with
        | inl e => Raise e
        | inr l =>
            match check_loop l [] with
            | inl e => Raise e
            | inr results => Return results
            end
        end
    | Some _ => Raise AttributeError
    end.

(** ** Helpers *)

(** [parse_emails]:
<<
    text = text.replace(",", "\n")
    return list({line.strip() for line in text.splitlines()
                 if "@" in line and "." in line})
>>
    The set is a [gset]; [list(...)] of a set is [elements], in an order the
    caller cannot rely on (as in Python). *)
Definition wanted (line : string) : bool :=
  Str.str_in "@" line && Str.str_in "." line.

Definition parse_emails (text : string) : list string :=
  let text := Str.replace_char ","%char Str.LF text in
  elements (list_to_set (C := gset string)
    (map Str.strip (List.filter wanted (Str.splitlines text)))).

Definition status_map : pydict :=
  [ ("yes", "⚠️ Flagged");
    ("no", "✅ Active");
    ("captcha", "🛡 CAPTCHA blocked");
    ("error", "❓ Unknown or Error") ].

(** [status_map.get(status, '❓ Unknown')]: a label that is not a string is
    no key of the map; a list or a dict is not hashable. *)
Definition render_status (status : json) : exn + string :=
  match status with
  | JStr label => inr (default "❓ Unknown" (Dict.get status_map label))
  | JList _ | JDict _ => inl TypeError
  | _ => inr "❓ Unknown"
  end.

(** One line of the reply: [f"{...} – {email}"]. *)
Definition render_line (email : string) (status : json) : exn + string :=
  match render_status status with
  | inl e => inl e
  | inr shown => inr (shown +:+ " – " +:+ email)
  end.

Fixpoint render_lines (items : list (string * json)) : exn + list string :=
  match items with
  | [] => inr []
  | (email, status) :: rest =>
      match render_line email status with
      | inl e => inl e
      | inr line =>
          match render_lines rest with
          | inl e => inl e
          | inr lines => inr (line :: lines)
          end
      end
  end.

(** [format_results]; [results] is whatever [response.json()] gave, and
    [results.items()] exists only on a dict. *)
Definition format_results (results : json) : exn + string :=
  match results with
  | JDict items =>
      match render_lines items with
      | inl e => inl e
      | inr lines => inr (Str.join Str.nl lines)
      end
  | _ => inl AttributeError
  end.

(** ** The world of the handlers *)

(** The arguments of a [requests] call; [timeout] is [None] when the call
    does not pass one (the library then waits without limit). *)
Record http_call : Type := {
  method : string;
  url : string;
  json_body : option json;
  call_headers : headers;
  timeout : option Z
}.

Record http_response : Type := {
  status_code : Z;
  content : option json   (* [None]: [response.json()] raises *)
}.

Inductive event : Type :=
  | ReplyText (text : string)        (* [update.message.reply_text] *)
  | EditMessageText (text : string)  (* [query.edit_message_text] *)
  | Answer                           (* [query.answer()] *)
  | HttpRequest (call : http_call)   (* [requests.get], [requests.post] *)
  | LogError (msg : string).         (* [logger.error] *)

(** The global [user_check_state] and everything done so far. *)
Record world : Type := {
  user_check_state : gmap Z bool;
  trace : list event
}.

(** What lies outside the program.  Each answer may depend on everything
    done so far, the call itself being the last event of the trace. *)
Record outside : Type := {
  str_exn : exn -> string;                            (* [str(e)] *)
  telegram : list event -> option exn;                (* the exception of a Telegram call, if it fails *)
  service : list event -> exn + http_response         (* the outcome of an HTTP call *)
}.

(** A computation: from a world to a value or an exception, and a world. *)
Definition M (A : Type) : Type := world -> (exn + A) * world.

Definition ret {A : Type} (a : A) : M A := fun w => (inr a, w).

Definition raise {A : Type} (e : exn) : M A := fun w => (inl e, w).

Definition bind {A B : Type} (m : M A) (k : A -> M B) : M B :=
  fun w =>
    match m w with
    | (inr a, w') => k a w'
    | (inl e, w') => (inl e, w')
    end.

#[global] Instance M_ret : MRet M := @ret.
#[global] Instance M_bind : MBind M := fun A B k m => bind m k.

(** [try: body / except Exception as e: handler e / finally: final].  The
    [finally] block runs on every path; an exception of the body that is not
    caught, or one of the handler, goes on after it. *)
Definition try_except_finally {A : Type}
    (body : M A) (handler : exn -> M A) (final : M unit) : M A :=
  fun w =>
    let (r, w1) :=
      match body w with
      | (inl e, w') => if is_Exception e then handler e w' else (inl e, w')
      | (inr a, w') => (inr a, w')
      end in
    match final w1 with
    | (inr _, w2) => (r, w2)
    | (inl e, w2) => (inl e, w2)
    end.

(** [try: body / except Exception: handler] *)
Definition try_except {A : Type} (body : M A) (handler : exn -> M A) : M A :=
  fun w =>
    match body w with
    | (inl e, w') => if is_Exception e then handler e w' else (inl e, w')
    | (inr a, w') => (inr a, w')
    end.

Definition lift {A : Type} (r : exn + A) : M A :=
  fun w => (r, w).

Definition record (ev : event) (w : world) : world :=
  {| user_check_state := user_check_state w; trace := trace w ++ [ev] |}.

(** [user_check_state.get(user_id)] *)
Definition get_state (user_id : Z) : M (option bool) :=
  fun w => (inr (user_check_state w !! user_id), w).

(** [user_check_state[user_id] = b] *)
Definition set_state (user_id : Z) (b : bool) : M unit :=
  fun w => (inr tt, {| user_check_state := <[user_id := b]> (user_check_state w);
                       trace := trace w |}).

(** [user_check_state.pop(user_id, None)] *)
Definition pop_state (user_id : Z) : M unit :=
  fun w => (inr tt, {| user_check_state := delete user_id (user_check_state w);
                       trace := trace w |}).

(** The truth value of [user_check_state.get(user_id)]. *)
Definition awaiting (flag : option bool) : bool := default false flag.

Section Handlers.

Variable environ : gmap string string.
Variable out : outside.

(** A call of the Telegram API. *)
Definition tell (ev : event) : M unit :=
  fun w =>
    let w' := record ev w in
    match telegram out (trace w') with
    | Some e => (inl e, w')
    | None => (inr tt, w')
    end.

Definition reply_text (text : string) : M unit := tell (ReplyText text).

Definition logger_error (msg : string) : M unit :=
  fun w => (inr tt, record (LogError msg) w).

(** A call of [requests]. *)
Definition request (call : http_call) : M http_response :=
  fun w =>
    let w' := record (HttpRequest call) w in
    (service out (trace w'), w').

(** [requests.get(url)] *)
Definition requests_get (u : string) : M http_response :=
  request {| method := "GET"; url := u; json_body := None;
             call_headers := []; timeout := None |}.

(** [requests.post(url, json=..., headers=...)] *)
Definition requests_post (u : string) (body : json) (hs : headers) : M http_response :=
  request {| method := "POST"; url := u; json_body := Some body;
             call_headers := hs; timeout := None |}.

(** [response.raise_for_status()] *)
Definition raise_for_status (r : http_response) : M unit :=
  if ((400 <=? status_code r) && (status_code r <? 600))%Z
  then raise (HTTPError (status_code r))
  else ret tt.

(** [response.json()] *)
Definition response_json (r : http_response) : M json :=
  match content r with
  | Some v => ret v
  | None => raise JSONDecodeError
  end.

(** The object a command is called with: the callback query of a button,
    or an update, whose message may be absent. *)
Inductive update_like : Type :=
  | CallbackQuery (from_user : Z) (data : string)
  | Update (effective_user : Z) (has_message : bool).

(** [update.from_user.id if hasattr(update, "from_user") else
    update.effective_user.id] *)
Definition user_of (update : update_like) : Z :=
  match update with
  | CallbackQuery uid _ => uid
  | Update uid _ => uid
  end.

(** The reply of a command: [edit_message_text] where the object has it,
    else [message.reply_text] when there is a message. *)
Definition respond (update : update_like) (text : string) : M unit :=
  match update with
  | CallbackQuery _ _ => tell (EditMessageText text)
  | Update _ true => reply_text text
  | Update _ false => ret tt
  end.

Definition check_command (update : update_like) : M unit :=
  set_state (user_of update) true ;;
  respond update "📨 Please send the email(s) you want to check.".

Definition cancel_command (update : update_like) : M unit :=
  pop_state (user_of update) ;;
  respond update "❌ Email check canceled.".

Definition status_command (update : update_like) : M unit :=
  msg ← try_except
           (response ← requests_get "http://127.0.0.1:8000/status";
            mret (if (status_code response =? 200)%Z
                 then "✅ Backend is up and running!"
                 else "⚠ Backend returned an error."))
           (fun _ => mret "❌ Could not reach backend.");
  respond update msg.

Definition help_text : string :=
  "ℹ️ *How to use this bot:*" +:+ Str.nl +:+ Str.nl +:+
  "1. Tap '✅ Start Email Check' to begin." +:+ Str.nl +:+
  "2. Send a list of email addresses (comma or newline-separated)." +:+ Str.nl +:+
  "3. The bot will check if they're flagged or active." +:+ Str.nl +:+ Str.nl +:+
  "Tap '❌ Cancel' to cancel." +:+ Str.nl +:+
  "Tap '📡 Status' to check backend health.".

Definition help_command (update : update_like) : M unit :=
  respond update help_text.

(** [button_handler]: the callback query of a pressed button. *)
Definition button_handler (from_user : Z) (data : string) : M unit :=
  let query := CallbackQuery from_user data in
  tell Answer ;;
  if String.eqb data "check" then check_command query
  else if String.eqb data "help" then help_command query
  else if String.eqb data "cancel" then cancel_command query
  else if String.eqb data "status" then status_command query
  else mret tt.

Definition checking (emails : list string) : string :=
  "🔍 Checking " +:+ pretty (length emails) +:+ " emails...".

Definition handle_message (user_id : Z) (text : string) : M unit :=
  flag ← get_state user_id;
  if negb (awaiting flag) then
    reply_text "❗ Please press '✅ Start Email Check' first."
  else
    let emails := parse_emails text in
    if bool_decide (emails = []) then
      reply_text "⚠ Please send valid email addresses."
    else
      reply_text (checking emails) ;;
      try_except_finally
        (response ← requests_post "http://127.0.0.1:8000/check_emails"
                       (JDict [("emails", JList (map JStr emails))])
                       [("x-api-key", API_KEY environ)];
         raise_for_status response ;;
         results ← response_json response;
         shown ← lift (format_results results);
         reply_text shown)
        (fun e =>
           logger_error ("Backend error: " +:+ str_exn out e) ;;
           reply_text ("⚠ Error: " +:+ str_exn out e))
        (set_state user_id false).

End Handlers.

(** ** Start-up ([if __name__ == "__main__"]) *)

(** How the start-up ends, once the backend thread has been started: the
    process exits, or the bot is built with a token and polls.  [printed] is
    what was printed before. *)
Inductive startup : Type :=
  | Exit (code : Z) (printed : list string)
  | RunPolling (token : string) (printed : list string).

Definition main (environ : gmap string string) : startup :=
  if negb (Str.truthy (TELEGRAM_BOT_TOKEN environ)) then
    Exit 1 ["❌ TELEGRAM_BOT_TOKEN is missing."]
  else
    RunPolling (TELEGRAM_BOT_TOKEN environ) ["🤖 Bot is running..."].

End Bot.


(* ===================================================================== *)
(** * Vocabulary of the statements and proofs *)
(* ===================================================================== *)

Module Vocabulary.

(** [c] is a byte of some entry of the table. *)
Definition in_table (table : list string) (c : ascii) : Prop :=
  exists w, In w table /\ In c (Str.chars w).

Definition table_has (table : list string) (c : ascii) : bool :=
  existsb (fun w => existsb (Ascii.eqb c) (Str.chars w)) table.

(** [results[e] = f e] for each [e] of [l] in turn: what both services'
    loops compute on a list of strings. *)
Fixpoint assign_all (f : string -> string) (l : list string) (acc : pydict) : pydict :=
  match l with
  | [] => acc
  | e :: rest => assign_all f rest (Dict.set acc e (f e))
  end.

(** A result mapping as the JSON object the service sends. *)
Definition as_json (results : pydict) : json :=
  JDict (map (fun kv => (fst kv, JStr (snd kv))) results).

(** What [status_map.get(label, '❓ Unknown')] shows for a label. *)
Definition shown (label : string) : string :=
  default "❓ Unknown" (Dict.get Bot.status_map label).

(** A computation only adds events to the trace, each satisfying [P]. *)
Definition emits {A : Type} (P : Bot.event -> Prop) (m : Bot.M A) : Prop :=
  forall w, exists evs,
    Bot.trace (snd (m w)) = (Bot.trace w ++ evs)%list /\ Forall P evs.

(** An event that is an HTTP call passes no timeout. *)
Definition without_timeout (ev : Bot.event) : Prop :=
  match ev with
  | Bot.HttpRequest call => Bot.timeout call = None
  | _ => True
  end.

(** An event that is an HTTP call passes a timeout. *)
Definition with_timeout (ev : Bot.event) : Prop :=
  match ev with
  | Bot.HttpRequest call => exists seconds, Bot.timeout call = Some seconds
  | _ => True
  end.

(** The HTTP response the framework sends for a handler outcome; the body
    of an error page is not JSON. *)
Definition to_http (r : response) : Bot.http_response :=
  match r with
  | Return results =>
      {| Bot.status_code := 200; Bot.content := Some (as_json results) |}
  | JSONResponse body code =>
      {| Bot.status_code := code; Bot.content := Some (as_json body) |}
  | Raise e =>
      {| Bot.status_code := status_of (Raise e); Bot.content := None |}
  end.

(** An outside in which Telegram never fails and the service is bot.py's
    own backend, as when both run in one process. *)
Definition loopback (environ : gmap string string) : Bot.outside :=
  {| Bot.str_exn := fun _ => "error";
     Bot.telegram := fun _ => None;
     Bot.service := fun tr =>
       match last tr with
       | Some (Bot.HttpRequest call) =>
           if String.eqb (Bot.method call) "POST" then
             inr (to_http (Bot.check_emails environ (Bot.call_headers call) (Bot.json_body call)))
           else
             inr {| Bot.status_code := 200; Bot.content := Some (as_json Bot.status) |}
       | _ => inl (RequestException "no request")
       end |}.

(** An outside in which Telegram never fails and the service cannot be
    reached. *)
Definition unreachable : Bot.outside :=
  {| Bot.str_exn := fun _ => "Connection refused";
     Bot.telegram := fun _ => None;
     Bot.service := fun _ => inl (RequestException "Connection refused") |}.

(** The call by which [handle_message] sends a batch. *)
Definition batch_call (environ : gmap string string) (emails : list string) : Bot.http_call :=
  {| Bot.method := "POST";
     Bot.url := "http://127.0.0.1:8000/check_emails";
     Bot.json_body := Some (JDict [("emails", JList (map JStr emails))]);
     Bot.call_headers := [("x-api-key", Bot.API_KEY environ)];
     Bot.timeout := None |}.

(** The call by which [status_command] probes the service. *)
Definition status_call : Bot.http_call :=
  {| Bot.method := "GET";
     Bot.url := "http://127.0.0.1:8000/status";
     Bot.json_body := None;
     Bot.call_headers := [];
     Bot.timeout := None |}.

(** The [try] statement of [handle_message] once [requests.post] has given
    its outcome [r]. *)
Definition after_post (out : Bot.outside) (user_id : Z)
    (r : exn + Bot.http_response) : Bot.M unit :=
  Bot.try_except_finally
    (response ← Bot.lift r;
     Bot.raise_for_status response ;;
     results ← Bot.response_json response;
     shown ← Bot.lift (Bot.format_results results);
     Bot.reply_text out shown)
    (fun e =>
       Bot.logger_error ("Backend error: " +:+ Bot.str_exn out e) ;;
       Bot.reply_text out ("⚠ Error: " +:+ Bot.str_exn out e))
    (Bot.set_state user_id false).

(** A world in which the given user has started a check. *)
Definition started (user_id : Z) : Bot.world :=
  {| Bot.user_check_state := {[ user_id := true ]}; Bot.trace := [] |}.

End Vocabulary.

(* ===================================================================== *)
(** * bot.py: the menu of [start] *)
(* ===================================================================== *)

Module Menu.

(** [InlineKeyboardButton(text, callback_data=...)] *)
Record InlineKeyboardButton : Type := {
  text : string;
  callback_data : string
}.

(** The [keyboard] built by [start], one button per row. *)
Definition keyboard : list (list InlineKeyboardButton) :=
  [ [ {| text := "✅ Start Email Check"; callback_data := "check" |} ];
    [ {| text := "ℹ️ Help"; callback_data := "help" |} ];
    [ {| text := "❌ Cancel"; callback_data := "cancel" |} ];
    [ {| text := "📡 Status"; callback_data := "status" |} ] ].

(** The buttons of the keyboard, row after row. *)
Definition buttons : list InlineKeyboardButton := concat keyboard.

End Menu.

(* ===================================================================== *)
(** * Further vocabulary: outcomes of a check, and what a handler keeps *)
(* ===================================================================== *)

Module Cover.

(** What the [try] block of [handle_message] makes of the outcome of
    [requests.post]: the text of the reply, or the exception that leaves the
    block before a reply is made ([raise_for_status], [response.json()],
    [format_results] in this order). *)
Definition rendered (r : exn + Bot.http_response) : exn + string :=
  match r with
  | inl e => inl e
  | inr response =>
      if ((400 <=? Bot.status_code response) && (Bot.status_code response <? 600))%Z
      then inl (HTTPError (Bot.status_code response))
      else match Bot.content response with
           | None => inl JSONDecodeError
           | Some results => Bot.format_results results
           end
  end.

(** A status that can be a key of a dict (lists and dicts cannot). *)
Definition hashable (status : json) : bool :=
  match status with
  | JList _ | JDict _ => false
  | _ => true
  end.

(** What is shown for a hashable status: the entry of [status_map] for a
    label string that is a key, ['❓ Unknown'] otherwise. *)
Definition shown_status (status : json) : string :=
  match status with
  | JStr label => Vocabulary.shown label
  | _ => "❓ Unknown"
  end.

(** The line of the reply for one entry of the mapping. *)
Definition line_of (item : string * json) : string :=
  shown_status (snd item) +:+ " – " +:+ fst item.

(** The line of the reply for an email classified by the embedded service. *)
Definition checked_line (email : string) : string :=
  Vocabulary.shown (Bot.classify email) +:+ " – " +:+ email.

(** A computation takes every world to one related to it by [R]. *)
Definition steps {A : Type} (R : Bot.world -> Bot.world -> Prop) (m : Bot.M A) : Prop :=
  forall w, R w (snd (m w)).

(** The flags of all users are the same in both worlds. *)
Definition same_flags (w w' : Bot.world) : Prop :=
  Bot.user_check_state w' = Bot.user_check_state w.

(** The flags of all users but [user_id] are the same in both worlds. *)
Definition same_other_flags (user_id : Z) (w w' : Bot.world) : Prop :=
  forall u : Z, u <> user_id ->
    Bot.user_check_state w' !! u = Bot.user_check_state w !! u.

(** No line boundary of [str.splitlines] starts anywhere in the string. *)
Definition unbroken (s : string) : Prop :=
  forall a b : string, s = a +:+ b -> Str.first_match Str.linebreaks b = None.

End Cover.

(* ===================================================================== *)
(** * Facts about the string operations *)
(* ===================================================================== *)

Module StrFacts.
Import Str Vocabulary.

Lemma chars_cons c s : chars (String c s) = c :: chars s.
Proof. reflexivity. Qed.

Lemma chars_app a b : chars (a +:+ b) = (chars a ++ chars b)%list.
Proof. induction a as [|c a IH]; simpl; [done|]. unfold chars in *. simpl. by rewrite IH. Qed.

Lemma chars_inj a b : chars a = chars b -> a = b.
Proof.
  intros H. rewrite <- (string_of_list_ascii_of_string a), <- (string_of_list_ascii_of_string b).
  unfold chars in H. by rewrite H.
Qed.

Lemma chars_rev_app a b : chars (String.rev_app a b) = (rev (chars a) ++ chars b)%list.
Proof.
  revert b. induction a as [|c a IH]; intros b; simpl; [done|].
  rewrite IH. rewrite chars_cons. simpl. by rewrite <- app_assoc.
Qed.

Lemma chars_rev s : chars (String.rev s) = rev (chars s).
Proof. unfold String.rev. rewrite chars_rev_app. simpl. by rewrite app_nil_r. Qed.

Lemma str_rev_involutive s : String.rev (String.rev s) = s.
Proof. apply chars_inj. rewrite !chars_rev. apply rev_involutive. Qed.

Lemma str_rev_app a b : String.rev (a +:+ b) = String.rev b +:+ String.rev a.
Proof. apply chars_inj. rewrite chars_rev, !chars_app, !chars_rev. apply rev_app_distr. Qed.

Lemma str_app_assoc a b c : (a +:+ b) +:+ c = a +:+ (b +:+ c).
Proof. apply chars_inj. rewrite !chars_app. symmetry. apply app_assoc. Qed.

Lemma str_length_chars a : String.length a = length (chars a).
Proof. induction a as [|x a IH]; [done|]. rewrite chars_cons. simpl. by rewrite IH. Qed.

Lemma str_length_app a b : String.length (a +:+ b) = String.length a + String.length b.
Proof. rewrite !str_length_chars, chars_app. apply length_app. Qed.

(** ** Prefixes and table matches *)

Lemma strip_prefix_Some w s r : strip_prefix w s = Some r -> s = w +:+ r.
Proof.
  revert s. induction w as [|a w IH]; intros s H; simpl in *.
  - by inversion H.
  - destruct s as [|b s]; [done|].
    destruct (Ascii.eqb_spec a b) as [->|]; [|done].
    by rewrite (IH _ H).
Qed.

Lemma strip_prefix_app w r : strip_prefix w (w +:+ r) = Some r.
Proof.
  induction w as [|a w IH]; simpl; [done|]. by rewrite Ascii.eqb_refl.
Qed.

Lemma strip_prefix_extend w s r t :
  strip_prefix w s = Some r -> strip_prefix w (s +:+ t) = Some (r +:+ t).
Proof.
  intros H. rewrite (strip_prefix_Some _ _ _ H), str_app_assoc. apply strip_prefix_app.
Qed.

Lemma first_match_Some table s w r :
  first_match table s = Some (w, r) -> In w table /\ s = w +:+ r.
Proof.
  induction table as [|x table IH]; simpl; [done|].
  destruct (strip_prefix x s) as [r'|] eqn:E.
  - intros [= <- <-]. split; [by left|]. by apply strip_prefix_Some.
  - intros H. destruct (IH H). split; [by right|done].
Qed.

Lemma first_match_None table s w :
  first_match table s = None -> In w table -> strip_prefix w s = None.
Proof.
  induction table as [|x table IH]; simpl; [done|].
  destruct (strip_prefix x s) as [r'|] eqn:E; [done|].
  intros H [<-|Hin]; [done|]. by apply IH.
Qed.

Lemma first_match_prefix_None table a b :
  first_match table (a +:+ b) = None -> first_match table a = None.
Proof.
  induction table as [|x table IH]; simpl; [done|].
  destruct (strip_prefix x a) as [r|] eqn:E.
  - by rewrite (strip_prefix_extend _ _ _ b E).
  - destruct (strip_prefix x (a +:+ b)); [done|]. apply IH.
Qed.

(** ** The substring test for one character *)

Lemma str_in_char c s : str_in (String c "") s = true <-> In c (chars s).
Proof.
  induction s as [|b s IH].
  - split; [done|intros []].
  - rewrite chars_cons. cbn [str_in strip_prefix].
    destruct (Ascii.eqb_spec c b) as [->|Hne].
    + split; [by left|done].
    + rewrite IH. split; [by right|]. intros [?|?]; [congruence|done].
Qed.

(** ** Stripping *)

Lemma table_has_complete table c : in_table table c -> table_has table c = true.
Proof.
  intros (w & Hw & Hc). apply existsb_exists. exists w. split; [done|].
  apply existsb_exists. exists c. split; [done|]. apply Ascii.eqb_refl.
Qed.

Lemma in_table_rev table c : in_table (map String.rev table) c -> in_table table c.
Proof.
  intros (w & Hw & Hc). apply in_map_iff in Hw as (v & <- & Hv).
  exists v. split; [done|]. rewrite chars_rev in Hc. by apply in_rev.
Qed.

Lemma lstrip_fuel_split table n s :
  exists pre, s = pre +:+ lstrip_fuel table n s /\
              forall c, In c (chars pre) -> in_table table c.
Proof.
  revert s. induction n as [|n IH]; intros s; cbn [lstrip_fuel].
  - exists "". split; [done|]. intros c [].
  - destruct (first_match table s) as [[w r]|] eqn:E.
    + destruct (first_match_Some _ _ _ _ E) as [Hin ->].
      destruct (IH r) as (pre & Hr & Hpre).
      exists (w +:+ pre). split.
      * rewrite str_app_assoc. f_equal. exact Hr.
      * intros c. rewrite chars_app, in_app_iff. intros [Hc|Hc]; [by exists w|auto].
    + exists "". split; [done|]. intros c [].
Qed.

Lemma lstrip_by_keeps table s c :
  ~ in_table table c -> In c (chars s) -> In c (chars (lstrip_by table s)).
Proof.
  intros Hno Hc. unfold lstrip_by.
  destruct (lstrip_fuel_split table (String.length s) s) as (pre & Hs & Hpre).
  rewrite Hs, chars_app, in_app_iff in Hc. destruct Hc as [Hc|Hc]; [|done].
  destruct Hno. auto.
Qed.

Lemma lstrip_by_sub table s c :
  In c (chars (lstrip_by table s)) -> In c (chars s).
Proof.
  intros Hc. unfold lstrip_by in Hc.
  destruct (lstrip_fuel_split table (String.length s) s) as (pre & Hs & _).
  rewrite Hs, chars_app, in_app_iff. by right.
Qed.

Lemma first_match_empty table :
  (forall w, In w table -> w <> "") -> first_match table "" = None.
Proof.
  induction table as [|w table IH]; intros Hne; cbn [first_match]; [done|].
  destruct w as [|a w]; [by destruct (Hne ""); [left|]|].
  cbn [strip_prefix]. apply IH. intros v Hv. apply Hne. by right.
Qed.

(** The length of the string is enough fuel: what is left starts with no
    entry of the table. *)
Lemma lstrip_fuel_enough table n s :
  (forall w, In w table -> w <> "") ->
  String.length s <= n ->
  first_match table (lstrip_fuel table n s) = None.
Proof.
  intros Hne. revert s. induction n as [|n IH]; intros s Hlen; cbn [lstrip_fuel].
  - destruct s; [|simpl in Hlen; lia]. by apply first_match_empty.
  - destruct (first_match table s) as [[w r]|] eqn:E; [|done].
    destruct (first_match_Some _ _ _ _ E) as [Hin ->].
    apply IH. rewrite str_length_app in Hlen.
    destruct w as [|a w]; [by destruct (Hne "" Hin)|]. simpl in Hlen. lia.
Qed.

Lemma whitespace_nonempty w : In w whitespace -> w <> "".
Proof.
  intros Hin ->. revert Hin. unfold whitespace. cbn. intuition discriminate.
Qed.

Lemma rev_whitespace_nonempty w : In w (map String.rev whitespace) -> w <> "".
Proof.
  intros Hin ->. revert Hin. unfold whitespace. cbn. intuition discriminate.
Qed.

Lemma strip_keeps c s :
  table_has whitespace c = false -> In c (chars s) -> In c (chars (strip s)).
Proof.
  intros Hno Hc. unfold strip, rstrip. rewrite chars_rev. apply in_rev.
  rewrite rev_involutive. apply lstrip_by_keeps.
  - intros Hin. apply in_table_rev, table_has_complete in Hin. congruence.
  - rewrite chars_rev. apply in_rev. rewrite rev_involutive. apply lstrip_by_keeps; [|done].
    intros Hin. apply table_has_complete in Hin. congruence.
Qed.

Lemma strip_sub c s : In c (chars (strip s)) -> In c (chars s).
Proof.
  unfold strip, rstrip. rewrite chars_rev. intros Hc. apply in_rev in Hc.
  apply lstrip_by_sub in Hc. rewrite chars_rev in Hc. apply in_rev in Hc.
  by apply lstrip_by_sub in Hc.
Qed.

(** A stripped string neither starts nor ends with a whitespace character. *)
Lemma strip_trimmed s :
  first_match whitespace (strip s) = None /\
  first_match (map String.rev whitespace) (String.rev (strip s)) = None.
Proof.
  unfold strip, rstrip. set (L := lstrip s). split.
  - destruct (lstrip_fuel_split (map String.rev whitespace)
                (String.length (String.rev L)) (String.rev L)) as (pre & HL & _).
    fold (lstrip_by (map String.rev whitespace) (String.rev L)) in HL.
    apply (f_equal String.rev) in HL. rewrite str_rev_involutive, str_rev_app in HL.
    apply first_match_prefix_None with (b := String.rev pre). rewrite <- HL.
    unfold L, lstrip, lstrip_by. apply lstrip_fuel_enough; [apply whitespace_nonempty|lia].
  - rewrite str_rev_involutive. unfold lstrip_by.
    apply lstrip_fuel_enough; [apply rev_whitespace_nonempty|lia].
Qed.

(** ** Lines *)

Lemma replace_char_chars old new s c :
  In c (chars (replace_char old new s)) -> c = new \/ (c <> old /\ In c (chars s)).
Proof.
  induction s as [|a s IH]; cbn [replace_char]; [intros []|].
  rewrite !chars_cons. intros [<-|Hc].
  - destruct (Ascii.eqb_spec a old) as [->|Hne]; [by left|]. right. split; [done|by left].
  - destruct (IH Hc) as [->|[? ?]]; [by left|]. right. split; [done|by right].
Qed.

(** Every character of a line produced by the scan comes from the line
    under construction or from the text, and in the latter case is no line
    feed. *)
Lemma splitlines_go_chars skip cur s line c :
  In line (splitlines_go skip cur s) -> In c (chars line) ->
  In c (chars cur) \/ (In c (chars s) /\ c <> LF).
Proof.
  revert skip cur. induction s as [|a r IH]; intros skip cur; cbn [splitlines_go].
  - destruct (String.eqb cur ""); [intros []|]. intros [<-|[]] Hc. by left.
  - rewrite chars_cons. destruct skip as [|k].
    + destruct (first_match linebreaks (String a r)) as [[w t]|] eqn:E.
      * intros [<-|Hin] Hc; [by left|].
        destruct (IH _ _ Hin Hc) as [[]|[? ?]]. right. split; [by right|done].
      * intros Hin Hc. destruct (IH _ _ Hin Hc) as [Hcur|[? ?]].
        -- rewrite chars_app, in_app_iff in Hcur. destruct Hcur as [?|[<-|[]]]; [by left|].
           right. split; [by left|]. intros ->.
           assert (In nl linebreaks) as Hnl by (unfold linebreaks; cbn; auto).
           pose proof (first_match_None _ _ _ E Hnl) as Hs.
           unfold nl in Hs. cbn [strip_prefix] in Hs. by rewrite Ascii.eqb_refl in Hs.
        -- right. split; [by right|done].
    + intros Hin Hc. destruct (IH _ _ Hin Hc) as [?|[? ?]]; [by left|].
      right. split; [by right|done].
Qed.

Lemma splitlines_chars s line c :
  In line (splitlines s) -> In c (chars line) -> In c (chars s) /\ c <> LF.
Proof.
  intros Hin Hc. destruct (splitlines_go_chars _ _ _ _ _ Hin Hc) as [[]|?]. done.
Qed.

End StrFacts.

(* ===================================================================== *)
(** * Facts about dicts and the loops of the two services *)
(* ===================================================================== *)

Module DictFacts.
Import Vocabulary.

Section Dict.
Context {V : Type}.
Implicit Types (d : list (string * V)) (k : string) (v : V).

Lemma get_set_eq d k v : Dict.get (Dict.set d k v) k = Some v.
Proof.
  induction d as [|[k' v'] d IH]; cbn [Dict.set Dict.get].
  - by rewrite String.eqb_refl.
  - destruct (String.eqb_spec k' k) as [->|Hne]; cbn [Dict.get].
    + by rewrite String.eqb_refl.
    + destruct (String.eqb_spec k' k); [done|]. exact IH.
Qed.

Lemma get_set_ne d k k' v : k <> k' -> Dict.get (Dict.set d k v) k' = Dict.get d k'.
Proof.
  intros Hne. induction d as [|[k0 v0] d IH]; cbn [Dict.set Dict.get].
  - destruct (String.eqb_spec k k'); [done|done].
  - destruct (String.eqb_spec k0 k) as [->|Hne0]; cbn [Dict.get].
    + destruct (String.eqb_spec k k'); [done|done].
    + destruct (String.eqb_spec k0 k'); [done|]. exact IH.
Qed.

Lemma keys_set d k v :
  forall x, In x (Dict.keys (Dict.set d k v)) <-> x = k \/ In x (Dict.keys d).
Proof.
  intros x. unfold Dict.keys.
  induction d as [|[k0 v0] d IH]; cbn [Dict.set map fst].
  - simpl. intuition.
  - destruct (String.eqb_spec k0 k) as [->|Hne]; cbn [map fst In].
    + intuition.
    + rewrite IH. intuition.
Qed.

Lemma NoDup_keys_set d k v :
  List.NoDup (Dict.keys d) -> List.NoDup (Dict.keys (Dict.set d k v)).
Proof.
  unfold Dict.keys.
  induction d as [|[k0 v0] d IH]; cbn [Dict.set map fst]; intros Hnd.
  - constructor; [intros []|constructor].
  - inversion Hnd as [|? ? Hnotin Hnd']; subst.
    destruct (String.eqb_spec k0 k) as [->|Hne]; cbn [map fst].
    + by constructor.
    + constructor; [|by apply IH].
      intros Hin. apply (keys_set d k v) in Hin as [->|Hin]; [done|].
      by apply Hnotin.
Qed.

End Dict.

(** The mapping after the loop: keys are the old keys and the emails, each
    once; the emails carry their labels, the other keys are unchanged. *)
Lemma assign_all_spec f l acc :
  let results := assign_all f l acc in
  (List.NoDup (Dict.keys acc) -> List.NoDup (Dict.keys results)) /\
  (forall e, In e (Dict.keys results) <-> In e (Dict.keys acc) \/ In e l) /\
  (forall e, In e l -> Dict.get results e = Some (f e)) /\
  (forall e, ~ In e l -> Dict.get results e = Dict.get acc e).
Proof.
  revert acc. induction l as [|a l IH]; intros acc; cbn [assign_all].
  - split; [done|]. split; [intros e; cbn [In]; tauto|]. split; [intros e []|done].
  - destruct (IH (Dict.set acc a (f a))) as (Hnd & Hkeys & Hin & Hout).
    split; [|split; [|split]].
    + intros H. by apply Hnd, NoDup_keys_set.
    + intros e. rewrite Hkeys, keys_set. cbn [In]. intuition.
    + intros e He. destruct (in_dec string_dec e l) as [Hl|Hl]; [by apply Hin|].
      destruct He as [->|He]; [|done]. rewrite (Hout _ Hl). apply get_set_eq.
    + intros e He. cbn [In] in He.
      rewrite Hout by tauto. apply get_set_ne. intros ->. tauto.
Qed.

Lemma bot_check_loop_strings l acc :
  Bot.check_loop (map JStr l) acc = inr (assign_all Bot.classify l acc).
Proof.
  revert acc. induction l as [|a l IH]; intros acc; cbn [map Bot.check_loop assign_all]; [done|].
  apply IH.
Qed.

Lemma main_check_loop_assign lower l acc :
  Main.check_loop lower l acc =
  assign_all (fun e => default "no" (Dict.get Main.SIMULATED_DATABASE (lower e))) l acc.
Proof.
  revert acc. induction l as [|a l IH]; intros acc; cbn [Main.check_loop assign_all]; [done|].
  apply IH.
Qed.

(** An authorized request with a list of strings under ["emails"]. *)
Lemma bot_check_emails_authorized environ hs data l :
  Dict.get hs "x-api-key" = Some (Bot.API_KEY environ) ->
  Dict.get data "emails" = Some (JList (map JStr l)) ->
  Bot.check_emails environ hs (Some (JDict data)) = Return (assign_all Bot.classify l []).
Proof.
  intros Hkey Hdata. unfold Bot.check_emails.
  rewrite bool_decide_true by done. cbn [negb]. rewrite Hdata. cbn [default from_option id Bot.iterate].
  by rewrite bot_check_loop_strings.
Qed.

Lemma main_check_emails_authorized lower environ hs payload :
  Dict.get hs "x-api-key" = Some (Main.API_KEY environ) ->
  Main.check_emails lower environ hs payload =
  Return (assign_all (fun e => default "no" (Dict.get Main.SIMULATED_DATABASE (lower e)))
            (Main.emails payload) []).
Proof.
  intros Hkey. unfold Main.check_emails.
  rewrite bool_decide_true by done. cbn [negb]. by rewrite main_check_loop_assign.
Qed.

Lemma main_strings l : Main.strings (map JStr l) = Some l.
Proof. induction l as [|a l IH]; cbn [map Main.strings]; [done|]. by rewrite IH. Qed.

(** A body with a list of strings under ["emails"] passes the validation,
    and the handler is called with that list. *)
Lemma main_validate_strings data l :
  Dict.get data "emails" = Some (JList (map JStr l)) ->
  Main.validate (Some (JDict data)) = Some {| Main.emails := l |}.
Proof. intros H. unfold Main.validate. by rewrite H, main_strings. Qed.

End DictFacts.

(* ===================================================================== *)
(** * The classification services *)
(* ===================================================================== *)

(** C1, as stated, fails for main.py: a payload that does not fit
    [EmailCheckRequest] is rejected by the validation of the request, with
    status 422, before the handler compares the key. *)
Lemma C1_counterexample :
  Dict.get ([] : headers) "x-api-key" <> Some (Main.API_KEY ∅) /\
  Main.post_check_emails Str.ascii_lower ∅ [] (Some (JDict [])) =
    Raise RequestValidationError /\
  status_of (Main.post_check_emails Str.ascii_lower ∅ [] (Some (JDict []))) = 422%Z /\
  ~ (forall (str_lower : string -> string) (environ : gmap string string)
            (hs : headers) (body : option json),
       Dict.get hs "x-api-key" <> Some (Main.API_KEY environ) ->
       status_of (Main.post_check_emails str_lower environ hs body) = 403%Z).
Proof.
  split; [discriminate|]. split; [reflexivity|]. split; [reflexivity|].
  intros H. specialize (H Str.ascii_lower ∅ [] (Some (JDict []))).
  cbn in H. discriminate H. discriminate.
Qed.

(** C1, amended.  When the [x-api-key] header is not the configured secret
    (a missing header included): bot.py answers 401 with the fixed error
    body for any payload, even one that is not JSON, since the key is
    compared before the body is read; main.py's handler raises the 403
    exception for any payload it is called with, that is, for any body that
    fits [EmailCheckRequest], and a body that does not is answered 422 by
    the validation.  No such response carries a classification mapping. *)
Theorem C1_unauthorized_without_classification :
  forall (environ : gmap string string) (hs : headers),
    Dict.get hs "x-api-key" <> Some (Bot.API_KEY environ) ->
    Dict.get hs "x-api-key" <> Some (Main.API_KEY environ) ->
    (forall body : option json,
        Bot.check_emails environ hs body = JSONResponse [("error", "Unauthorized")] 401 /\
        status_of (Bot.check_emails environ hs body) = 401%Z /\
        classification_of (Bot.check_emails environ hs body) = None) /\
    (forall (str_lower : string -> string) (payload : Main.EmailCheckRequest),
        Main.check_emails str_lower environ hs payload =
          Raise (HTTPException 403 "Invalid API key") /\
        status_of (Main.check_emails str_lower environ hs payload) = 403%Z /\
        classification_of (Main.check_emails str_lower environ hs payload) = None) /\
    (forall (str_lower : string -> string) (body : option json),
        Main.post_check_emails str_lower environ hs body =
          match Main.validate body with
          | Some _ => Raise (HTTPException 403 "Invalid API key")
          | None => Raise RequestValidationError
          end /\
        classification_of (Main.post_check_emails str_lower environ hs body) = None).
Proof.
  intros environ hs Hbot Hmain.
  assert (forall str_lower payload,
            Main.check_emails str_lower environ hs payload =
            Raise (HTTPException 403 "Invalid API key")) as Hhandler.
  { intros str_lower payload. unfold Main.check_emails.
    by rewrite bool_decide_false by exact Hmain. }
  split; [|split].
  - intros body. unfold Bot.check_emails.
    rewrite bool_decide_false by exact Hbot. cbn [negb]. done.
  - intros str_lower payload. by rewrite Hhandler.
  - intros str_lower body. unfold Main.post_check_emails.
    destruct (Main.validate body) as [payload|]; [by rewrite Hhandler|done].
Qed.

Lemma C1_witness :
  (Bot.check_emails ∅ [] None = JSONResponse [("error", "Unauthorized")] 401 /\
   Bot.check_emails ∅ [("x-api-key", "My_Secure_Api_Key_123")]
     (Some (JDict [("emails", JList [JStr "flag@example.com"])]))
   = JSONResponse [("error", "Unauthorized")] 401) /\
  Main.check_emails Str.ascii_lower ∅ []
    {| Main.emails := ["active@example.com"] |}
  = Raise (HTTPException 403 "Invalid API key").
Proof.
  split; [split|].
  - apply (C1_unauthorized_without_classification ∅ []); vm_compute; discriminate.
  - apply (C1_unauthorized_without_classification ∅
             [("x-api-key", "My_Secure_Api_Key_123")]); vm_compute; discriminate.
  - apply (C1_unauthorized_without_classification ∅ []); vm_compute; discriminate.
Defined.

(** C2.  With the matching key, main.py answers the four reference emails
    (the handler called with the list, and the route called with the JSON
    body) with exactly the mapping yes / no / captcha / no: the email that
    is no key of the table gets the default label ["no"], which the front
    end shows as Active. *)
Theorem C2_fixed_dictionary_reference :
  forall (str_lower : string -> string) (environ : gmap string string) (hs : headers),
    (forall s, Str.is_ascii s = true -> str_lower s = Str.ascii_lower s) ->
    Dict.get hs "x-api-key" = Some (Main.API_KEY environ) ->
    Main.check_emails str_lower environ hs
      {| Main.emails := ["active@example.com"; "flagged@example.com";
                         "blocked@example.com"; "nomatch@example.com"] |}
    = Return [ ("active@example.com", "yes");
               ("flagged@example.com", "no");
               ("blocked@example.com", "captcha");
               ("nomatch@example.com", "no") ] /\
    Main.post_check_emails str_lower environ hs
      (Some (JDict [("emails", JList [JStr "active@example.com"; JStr "flagged@example.com";
                                      JStr "blocked@example.com"; JStr "nomatch@example.com"])]))
    = Return [ ("active@example.com", "yes");
               ("flagged@example.com", "no");
               ("blocked@example.com", "captcha");
               ("nomatch@example.com", "no") ] /\
    Dict.get Main.SIMULATED_DATABASE "nomatch@example.com" = None /\
    Bot.render_status (JStr "no") = inr "✅ Active".
Proof.
  intros str_lower environ hs Hlower Hkey.
  assert (Main.check_emails str_lower environ hs
            {| Main.emails := ["active@example.com"; "flagged@example.com";
                               "blocked@example.com"; "nomatch@example.com"] |}
          = Return [ ("active@example.com", "yes");
                     ("flagged@example.com", "no");
                     ("blocked@example.com", "captcha");
                     ("nomatch@example.com", "no") ]) as Hhandler.
  { unfold Main.check_emails. rewrite bool_decide_true by exact Hkey.
    cbn [negb Main.emails Main.check_loop].
    rewrite !Hlower by reflexivity. reflexivity. }
  split; [exact Hhandler|]. split; [exact Hhandler|]. split; reflexivity.
Qed.

Lemma C2_witness :
  Main.check_emails Str.ascii_lower ∅ [("x-api-key", "my_secure_api_key_123")]
    {| Main.emails := ["active@example.com"; "flagged@example.com";
                       "blocked@example.com"; "nomatch@example.com"] |}
  = Return [ ("active@example.com", "yes");
             ("flagged@example.com", "no");
             ("blocked@example.com", "captcha");
             ("nomatch@example.com", "no") ].
Proof.
  apply (C2_fixed_dictionary_reference Str.ascii_lower ∅
           [("x-api-key", "my_secure_api_key_123")]).
  - intros s _. reflexivity.
  - reflexivity.
Defined.

(** C3.  In an authorized batch of email strings sent to bot.py's service,
    every email gets a label by the substring rule: shown as Flagged when it
    contains "flag", else as Active when it contains "active", else as
    Unknown or Error; "flag" is tested first. *)
Theorem C3_substring_strategy :
  forall (environ : gmap string string) (hs : headers)
         (data : list (string * json)) (emails : list string) (email : string),
    Dict.get hs "x-api-key" = Some (Bot.API_KEY environ) ->
    Dict.get data "emails" = Some (JList (map JStr emails)) ->
    In email emails ->
    exists (results : pydict) (label : string),
      Bot.check_emails environ hs (Some (JDict data)) = Return results /\
      Dict.get results email = Some label /\
      Bot.render_status (JStr label) =
        inr (if Str.str_in "flag" email then "⚠️ Flagged"
             else if Str.str_in "active" email then "✅ Active"
             else "❓ Unknown or Error").
Proof.
  intros environ hs data emails email Hkey Hdata Hin.
  exists (Vocabulary.assign_all Bot.classify emails []), (Bot.classify email).
  split; [by apply DictFacts.bot_check_emails_authorized|].
  split.
  - by apply (DictFacts.assign_all_spec Bot.classify emails []).
  - unfold Bot.classify.
    destruct (Str.str_in "flag" email); [reflexivity|].
    destruct (Str.str_in "active" email); reflexivity.
Qed.

Lemma C3_witness :
  exists (results : pydict) (label : string),
    Bot.check_emails ∅ [("x-api-key", "my_secure_api_key_123")]
      (Some (JDict [("emails", JList (map JStr ["inactive_flag@x.org"; "active@x.org"]))]))
      = Return results /\
    Dict.get results "inactive_flag@x.org" = Some label /\
    Bot.render_status (JStr label) = inr "⚠️ Flagged".
Proof.
  apply (C3_substring_strategy ∅ [("x-api-key", "my_secure_api_key_123")]
           [("emails", JList (map JStr ["inactive_flag@x.org"; "active@x.org"]))]
           ["inactive_flag@x.org"; "active@x.org"] "inactive_flag@x.org").
  - reflexivity.
  - reflexivity.
  - simpl. auto.
Defined.

(** C4, as stated, fails: it speaks of every authorized request, and an
    authorized request whose list holds one element that is not a string
    gets no mapping at all, so the email strings of that list are dropped.
    bot.py's loop raises [TypeError] at that element (status 500); main.py's
    route rejects the body in validation (status 422). *)
Lemma C4_counterexample :
  Bot.check_emails ∅ [("x-api-key", "my_secure_api_key_123")]
    (Some (JDict [("emails", JList [JStr "flag@x.org"; JNull; JStr "active@x.org"])]))
    = Raise TypeError /\
  Main.post_check_emails Str.ascii_lower ∅ [("x-api-key", "my_secure_api_key_123")]
    (Some (JDict [("emails", JList [JStr "a@x.org"; JInt 1])]))
    = Raise RequestValidationError /\
  ~ (forall (environ : gmap string string) (hs : headers)
            (data : list (string * json)) (l : list json) (email : string),
       Dict.get hs "x-api-key" = Some (Bot.API_KEY environ) ->
       Dict.get data "emails" = Some (JList l) ->
       In (JStr email) l ->
       exists results : pydict,
         Bot.check_emails environ hs (Some (JDict data)) = Return results /\
         In email (Dict.keys results)) /\
  ~ (forall (str_lower : string -> string) (environ : gmap string string) (hs : headers)
            (data : list (string * json)) (l : list json) (email : string),
       Dict.get hs "x-api-key" = Some (Main.API_KEY environ) ->
       Dict.get data "emails" = Some (JList l) ->
       In (JStr email) l ->
       exists results : pydict,
         Main.post_check_emails str_lower environ hs (Some (JDict data)) = Return results /\
         In email (Dict.keys results)).
Proof.
  split; [reflexivity|]. split; [reflexivity|]. split.
  - intros H.
    destruct (H ∅ [("x-api-key", "my_secure_api_key_123")]
                [("emails", JList [JStr "flag@x.org"; JNull; JStr "active@x.org"])]
                [JStr "flag@x.org"; JNull; JStr "active@x.org"] "flag@x.org")
      as (results & Hret & _); [reflexivity|reflexivity|by left|].
    discriminate Hret.
  - intros H.
    destruct (H Str.ascii_lower ∅ [("x-api-key", "my_secure_api_key_123")]
                [("emails", JList [JStr "a@x.org"; JInt 1])]
                [JStr "a@x.org"; JInt 1] "a@x.org")
      as (results & Hret & _); [reflexivity|reflexivity|by left|].
    discriminate Hret.
Qed.

(** C4, amended.  For an authorized request whose submitted list consists
    of strings only, in bot.py's service and in main.py's (handler and
    route), the keys of the returned mapping are exactly the submitted
    strings, each once and as submitted: none is dropped, none is
    normalized. *)
Theorem C4_every_email_once :
  forall (environ : gmap string string) (hs : headers) (emails : list string),
    Dict.get hs "x-api-key" = Some (Bot.API_KEY environ) ->
    Dict.get hs "x-api-key" = Some (Main.API_KEY environ) ->
    (forall data : list (string * json),
        Dict.get data "emails" = Some (JList (map JStr emails)) ->
        exists results : pydict,
          Bot.check_emails environ hs (Some (JDict data)) = Return results /\
          List.NoDup (Dict.keys results) /\
          (forall e, In e (Dict.keys results) <-> In e emails) /\
          (forall e, In e emails -> count_occ string_dec (Dict.keys results) e = 1)) /\
    (forall (str_lower : string -> string) (data : list (string * json)),
        Dict.get data "emails" = Some (JList (map JStr emails)) ->
        exists results : pydict,
          Main.check_emails str_lower environ hs {| Main.emails := emails |} = Return results /\
          Main.post_check_emails str_lower environ hs (Some (JDict data)) = Return results /\
          List.NoDup (Dict.keys results) /\
          (forall e, In e (Dict.keys results) <-> In e emails) /\
          (forall e, In e emails -> count_occ string_dec (Dict.keys results) e = 1)).
Proof.
  intros environ hs emails Hbot Hmain.
  assert (forall f, let results := Vocabulary.assign_all f emails [] in
            List.NoDup (Dict.keys results) /\
            (forall e, In e (Dict.keys results) <-> In e emails) /\
            (forall e, In e emails -> count_occ string_dec (Dict.keys results) e = 1))
    as Hspec.
  { intros f results.
    destruct (DictFacts.assign_all_spec f emails []) as (Hnd & Hkeys & _ & _).
    fold results in Hnd, Hkeys.
    assert (List.NoDup (Dict.keys results)) as Hnd' by (apply Hnd; constructor).
    assert (forall e, In e (Dict.keys results) <-> In e emails) as Hkeys'.
    { intros e. rewrite Hkeys. cbn [Dict.keys map In]. tauto. }
    split; [done|]. split; [done|].
    intros e He. apply Hkeys' in He.
    pose proof (proj1 (NoDup_count_occ string_dec _) Hnd' e) as Hle.
    apply (count_occ_In string_dec) in He. lia. }
  split.
  - intros data Hdata. eexists. split; [by apply DictFacts.bot_check_emails_authorized|].
    apply Hspec.
  - intros str_lower data Hdata. eexists.
    split; [by apply DictFacts.main_check_emails_authorized|].
    split; [|apply Hspec].
    unfold Main.post_check_emails. rewrite (DictFacts.main_validate_strings _ _ Hdata).
    by apply DictFacts.main_check_emails_authorized.
Qed.

Lemma C4_witness :
  (exists results : pydict,
      Bot.check_emails ∅ [("x-api-key", "my_secure_api_key_123")]
        (Some (JDict [("emails", JList (map JStr ["B@x.org"; "a@x.org"; "B@x.org"]))]))
        = Return results /\
      List.NoDup (Dict.keys results) /\
      (forall e, In e (Dict.keys results) <-> In e ["B@x.org"; "a@x.org"; "B@x.org"]) /\
      (forall e, In e ["B@x.org"; "a@x.org"; "B@x.org"] ->
                 count_occ string_dec (Dict.keys results) e = 1)) /\
  (exists results : pydict,
      Main.check_emails Str.ascii_lower ∅ [("x-api-key", "my_secure_api_key_123")]
        {| Main.emails := ["B@x.org"; "a@x.org"; "B@x.org"] |} = Return results /\
      Main.post_check_emails Str.ascii_lower ∅ [("x-api-key", "my_secure_api_key_123")]
        (Some (JDict [("emails", JList (map JStr ["B@x.org"; "a@x.org"; "B@x.org"]))]))
        = Return results /\
      List.NoDup (Dict.keys results) /\
      (forall e, In e (Dict.keys results) <-> In e ["B@x.org"; "a@x.org"; "B@x.org"]) /\
      (forall e, In e ["B@x.org"; "a@x.org"; "B@x.org"] ->
                 count_occ string_dec (Dict.keys results) e = 1)).
Proof.
  pose proof (C4_every_email_once ∅ [("x-api-key", "my_secure_api_key_123")]
                ["B@x.org"; "a@x.org"; "B@x.org"] eq_refl eq_refl) as [Hbot Hmain].
  split.
  - apply Hbot. reflexivity.
  - apply (Hmain Str.ascii_lower
             [("emails", JList (map JStr ["B@x.org"; "a@x.org"; "B@x.org"]))]).
    reflexivity.
Defined.

(** C10.  In bot.py's service an authorized request whose JSON object has
    no ["emails"] field is not rejected: the batch is empty and the answer
    is the empty mapping with status 200. *)
Theorem C10_missing_emails_field_is_empty_batch :
  forall (environ : gmap string string) (hs : headers) (data : list (string * json)),
    Dict.get hs "x-api-key" = Some (Bot.API_KEY environ) ->
    Dict.get data "emails" = None ->
    Bot.check_emails environ hs (Some (JDict data)) = Return [] /\
    status_of (Bot.check_emails environ hs (Some (JDict data))) = 200%Z.
Proof.
  intros environ hs data Hkey Hdata. unfold Bot.check_emails.
  rewrite bool_decide_true by exact Hkey. cbn [negb]. rewrite Hdata. done.
Qed.

Lemma C10_witness :
  Bot.check_emails ∅ [("x-api-key", "my_secure_api_key_123")]
    (Some (JDict [("addresses", JList [JStr "flag@x.org"])])) = Return [] /\
  status_of (Bot.check_emails ∅ [("x-api-key", "my_secure_api_key_123")]
    (Some (JDict [("addresses", JList [JStr "flag@x.org"])]))) = 200%Z.
Proof.
  apply (C10_missing_emails_field_is_empty_batch ∅
           [("x-api-key", "my_secure_api_key_123")]
           [("addresses", JList [JStr "flag@x.org"])]); reflexivity.
Defined.

(* ===================================================================== *)
(** * The front end's helpers *)
(* ===================================================================== *)

Module HelperFacts.
Import Str Vocabulary StrFacts.

(** The entries of [parse_emails] are the stripped wanted lines. *)
Lemma parse_emails_In text e :
  In e (Bot.parse_emails text) <->
  exists line, In line (splitlines (replace_char ","%char LF text)) /\
               Bot.wanted line = true /\ e = strip line.
Proof.
  unfold Bot.parse_emails. rewrite <- list_elem_of_In, elem_of_elements, elem_of_list_to_set.
  rewrite list_elem_of_In, in_map_iff. split.
  - intros (line & <- & Hin). apply filter_In in Hin as [Hin Hw]. by exists line.
  - intros (line & Hin & Hw & ->). exists line. split; [done|]. by apply filter_In.
Qed.

Lemma parse_emails_NoDup text : List.NoDup (Bot.parse_emails text).
Proof. unfold Bot.parse_emails. apply NoDup_ListNoDup, NoDup_elements. Qed.

(** A line of the text in which commas were replaced holds no comma and no
    line feed. *)
Lemma line_no_separator text line c :
  In line (splitlines (replace_char ","%char LF text)) ->
  In c (chars line) -> c <> ","%char /\ c <> LF.
Proof.
  intros Hin Hc. destruct (splitlines_chars _ _ _ Hin Hc) as [Hc' Hlf].
  split; [|done].
  apply replace_char_chars in Hc' as [->|[? _]]; [discriminate|done].
Qed.

Lemma not_str_in_char c s : ~ In c (chars s) -> str_in (String c "") s = false.
Proof.
  intros H. destruct (str_in (String c "") s) eqn:E; [|done].
  by apply str_in_char in E.
Qed.

End HelperFacts.

(** C6.  For every text, [parse_emails] returns a list without duplicates
    whose entries each contain '@' and '.'.  The entries are exactly the
    stripped pieces of the text, cut at commas and line boundaries, that
    contain both characters: an entry holds no comma and no line feed, and
    neither starts nor ends with a whitespace character. *)
Theorem C6_parse_emails_distinct_with_at_and_dot :
  forall text : string,
    List.NoDup (Bot.parse_emails text) /\
    (forall e, In e (Bot.parse_emails text) ->
       Str.str_in "@" e = true /\ Str.str_in "." e = true /\
       Str.str_in "," e = false /\ Str.str_in Str.nl e = false /\
       Str.first_match Str.whitespace e = None /\
       Str.first_match (map String.rev Str.whitespace) (String.rev e) = None) /\
    (forall e, In e (Bot.parse_emails text) <->
       exists line,
         In line (Str.splitlines (Str.replace_char ","%char Str.LF text)) /\
         Str.str_in "@" line = true /\ Str.str_in "." line = true /\
         e = Str.strip line).
Proof.
  intros text. split; [apply HelperFacts.parse_emails_NoDup|]. split.
  - intros e He. apply HelperFacts.parse_emails_In in He as (line & Hin & Hw & ->).
    unfold Bot.wanted in Hw. apply andb_prop in Hw as [Hat Hdot].
    apply StrFacts.str_in_char in Hat, Hdot.
    split; [|split; [|split; [|split]]].
    + apply StrFacts.str_in_char. by apply StrFacts.strip_keeps.
    + apply StrFacts.str_in_char. by apply StrFacts.strip_keeps.
    + apply HelperFacts.not_str_in_char. intros Hc. apply StrFacts.strip_sub in Hc.
      by destruct (HelperFacts.line_no_separator _ _ _ Hin Hc).
    + apply HelperFacts.not_str_in_char. intros Hc. apply StrFacts.strip_sub in Hc.
      by destruct (HelperFacts.line_no_separator _ _ _ Hin Hc).
    + apply StrFacts.strip_trimmed.
  - intros e. rewrite HelperFacts.parse_emails_In. unfold Bot.wanted.
    split; intros (line & Hin & H); exists line; (split; [done|]).
    + destruct H as [Hw ->]. apply andb_prop in Hw as [? ?]. done.
    + destruct H as (Hat & Hdot & ->). by rewrite Hat, Hdot.
Qed.

(* ===================================================================== *)
(** * The handlers of the front end *)
(* ===================================================================== *)

Module FrontFacts.
Import Bot Vocabulary.

(** ** What a handler adds to the trace *)

Section Emits.
Variable P : event -> Prop.

Lemma emits_here {A : Type} (m : M A) :
  (forall w, trace (snd (m w)) = trace w) -> emits P m.
Proof. intros H w. exists []. rewrite H, app_nil_r. by split. Qed.

Lemma emits_ret {A : Type} (a : A) : emits P (ret a).
Proof. by apply emits_here. Qed.

Lemma emits_raise {A : Type} (e : exn) : emits P (raise (A := A) e).
Proof. by apply emits_here. Qed.

Lemma emits_lift {A : Type} (r : exn + A) : emits P (lift r).
Proof. by apply emits_here. Qed.

Lemma emits_get_state u : emits P (get_state u).
Proof. by apply emits_here. Qed.

Lemma emits_set_state u b : emits P (set_state u b).
Proof. by apply emits_here. Qed.

Lemma emits_pop_state u : emits P (pop_state u).
Proof. by apply emits_here. Qed.

Lemma emits_one {A : Type} (m : M A) ev :
  P ev -> (forall w, snd (m w) = record ev w) -> emits P m.
Proof.
  intros HP H w. exists [ev]. rewrite H. split; [done|]. by constructor.
Qed.

Lemma emits_tell out ev : P ev -> emits P (tell out ev).
Proof.
  intros HP. apply (emits_one _ ev HP). intros w. unfold tell.
  by destruct (telegram out (trace (record ev w))).
Qed.

Lemma emits_logger_error msg : P (LogError msg) -> emits P (logger_error msg).
Proof. intros HP. by apply (emits_one _ (LogError msg) HP). Qed.

Lemma emits_request out call : P (HttpRequest call) -> emits P (request out call).
Proof. intros HP. by apply (emits_one _ (HttpRequest call) HP). Qed.

Lemma emits_bind {A B : Type} (m : M A) (k : A -> M B) :
  emits P m -> (forall a, emits P (k a)) -> emits P (bind m k).
Proof.
  intros Hm Hk w. unfold bind.
  destruct (Hm w) as (evs1 & E1 & F1).
  destruct (m w) as [[e|a] w1]; cbn [snd] in *.
  - by exists evs1.
  - destruct (Hk a w1) as (evs2 & E2 & F2).
    exists (evs1 ++ evs2)%list. rewrite E2, E1, <- app_assoc.
    split; [done|]. by apply Forall_app.
Qed.

Lemma emits_try_except {A : Type} (body : M A) (handler : exn -> M A) :
  emits P body -> (forall e, emits P (handler e)) ->
  emits P (try_except body handler).
Proof.
  intros Hb Hh w. unfold try_except.
  destruct (Hb w) as (evs1 & E1 & F1).
  destruct (body w) as [[e|a] w1]; cbn [snd] in *; [|by exists evs1].
  destruct (is_Exception e); [|by exists evs1].
  destruct (Hh e w1) as (evs2 & E2 & F2).
  exists (evs1 ++ evs2)%list. rewrite E2, E1, <- app_assoc.
  split; [done|]. by apply Forall_app.
Qed.

Lemma emits_try_except_finally {A : Type}
    (body : M A) (handler : exn -> M A) (final : M unit) :
  emits P body -> (forall e, emits P (handler e)) -> emits P final ->
  emits P (try_except_finally body handler final).
Proof.
  intros Hb Hh Hf w.
  destruct (emits_try_except body handler Hb Hh w) as (evs1 & E1 & F1).
  unfold try_except_finally. unfold try_except in E1.
  destruct (body w) as [[e|a] w1].
  - destruct (is_Exception e).
    + destruct (handler e w1) as [r w2]. cbn [snd] in E1.
      destruct (Hf w2) as (evs2 & E2 & F2).
      exists (evs1 ++ evs2)%list. split; [|by apply Forall_app].
      destruct (final w2) as [[e'|[]] w3]; cbn [snd] in *;
        by rewrite E2, E1, <- app_assoc.
    + cbn [snd] in E1. destruct (Hf w1) as (evs2 & E2 & F2).
      exists (evs1 ++ evs2)%list. split; [|by apply Forall_app].
      destruct (final w1) as [[e'|[]] w3]; cbn [snd] in *;
        by rewrite E2, E1, <- app_assoc.
  - cbn [snd] in E1. destruct (Hf w1) as (evs2 & E2 & F2).
    exists (evs1 ++ evs2)%list. split; [|by apply Forall_app].
    destruct (final w1) as [[e'|[]] w3]; cbn [snd] in *;
      by rewrite E2, E1, <- app_assoc.
Qed.

End Emits.

(** The replies and log entries satisfy [P], and so does an HTTP call
    without timeout: then everything the two calling handlers add does. *)
Section Calls.
Variable P : event -> Prop.
Hypothesis P_reply : forall text, P (ReplyText text).
Hypothesis P_edit : forall text, P (EditMessageText text).
Hypothesis P_log : forall msg, P (LogError msg).
Hypothesis P_call : forall call, timeout call = None -> P (HttpRequest call).

Lemma emits_respond out update text : emits P (respond out update text).
Proof.
  destruct update as [uid data|uid [|]]; cbn [respond].
  - by apply emits_tell.
  - by apply emits_tell.
  - apply emits_ret.
Qed.

Lemma emits_status_command out update : emits P (status_command out update).
Proof.
  unfold status_command. apply emits_bind; [|intros msg; apply emits_respond].
  apply emits_try_except; [|intros e; apply emits_ret].
  apply emits_bind; [|intros r; apply emits_ret].
  apply emits_request. by apply P_call.
Qed.

Lemma emits_raise_for_status r : emits P (raise_for_status r).
Proof.
  unfold raise_for_status. destruct (_ && _); [apply emits_raise|apply emits_ret].
Qed.

Lemma emits_response_json r : emits P (response_json r).
Proof.
  unfold response_json. destruct (content r); [apply emits_ret|apply emits_raise].
Qed.

Lemma emits_reply_text out text : emits P (reply_text out text).
Proof. by apply emits_tell. Qed.

Lemma emits_after_post out user_id r : emits P (after_post out user_id r).
Proof.
  apply emits_try_except_finally.
  - apply emits_bind; [apply emits_lift|]. intros response.
    apply emits_bind; [apply emits_raise_for_status|]. intros _.
    apply emits_bind; [apply emits_response_json|]. intros results.
    apply emits_bind; [apply emits_lift|]. intros s. apply emits_reply_text.
  - intros e. apply emits_bind; [by apply emits_logger_error|]. intros _.
    apply emits_reply_text.
  - apply emits_set_state.
Qed.

Lemma emits_handle_message environ out user_id text :
  emits P (handle_message environ out user_id text).
Proof.
  unfold handle_message. apply emits_bind; [apply emits_get_state|]. intros flag.
  destruct (negb (awaiting flag)); [apply emits_reply_text|].
  destruct (bool_decide _); [apply emits_reply_text|].
  apply emits_bind; [apply emits_reply_text|]. intros _.
  apply emits_try_except_finally.
  - apply emits_bind; [apply emits_request; by apply P_call|]. intros response.
    apply emits_bind; [apply emits_raise_for_status|]. intros _.
    apply emits_bind; [apply emits_response_json|]. intros results.
    apply emits_bind; [apply emits_lift|]. intros s. apply emits_reply_text.
  - intros e. apply emits_bind; [by apply emits_logger_error|]. intros _.
    apply emits_reply_text.
  - apply emits_set_state.
Qed.

End Calls.

(** ** The [finally] block *)

Lemma try_except_finally_resets {A : Type}
    (body : M A) (handler : exn -> M A) (user_id : Z) (w : world) :
  user_check_state (snd (try_except_finally body handler (set_state user_id false) w))
    !! user_id = Some false.
Proof.
  unfold try_except_finally, set_state.
  destruct (body w) as [[e|a] w1]; [destruct (is_Exception e)|].
  - destruct (handler e w1) as [r w2]. cbn. apply lookup_insert_eq.
  - cbn. apply lookup_insert_eq.
  - cbn. apply lookup_insert_eq.
Qed.

(** ** [handle_message] after the progress reply *)

Lemma handle_message_sends environ out user_id text w :
  user_check_state w !! user_id = Some true ->
  parse_emails text <> [] ->
  telegram out (trace w ++ [ReplyText (checking (parse_emails text))]) = None ->
  let w2 := record (HttpRequest (batch_call environ (parse_emails text)))
              (record (ReplyText (checking (parse_emails text))) w) in
  handle_message environ out user_id text w =
  after_post out user_id (service out (trace w2)) w2.
Proof.
  intros Hflag Hbatch Htg w2.
  unfold handle_message, mbind, M_bind, bind at 1, get_state.
  rewrite Hflag. cbn [awaiting default from_option id negb].
  rewrite bool_decide_false by exact Hbatch.
  unfold bind at 1, reply_text at 1, tell. cbn [record trace]. rewrite Htg.
  unfold after_post, try_except_finally, mbind, M_bind.
  unfold bind at 1. unfold bind at 5.
  unfold requests_post, request, lift. fold (batch_call environ (parse_emails text)).
  fold w2. by destruct (service out (trace w2)).
Qed.

End FrontFacts.

(* ===================================================================== *)
(** * The front end *)
(* ===================================================================== *)

(** C5.  A user with the Session Flag set sends a text with a non-empty
    batch.  The batch is sent to the service exactly when the progress reply
    goes through, and then, whatever the service answers (an exception of
    the call, any status, any body) and whatever happens to the later
    replies, the user's Session Flag is false afterwards.  (When the progress
    reply fails, its exception leaves the handler before anything is sent.) *)
Theorem C5_flag_reset_after_batch_sent :
  forall (environ : gmap string string) (out : Bot.outside)
         (user_id : Z) (text : string) (w : Bot.world),
    Bot.user_check_state w !! user_id = Some true ->
    Bot.parse_emails text <> [] ->
    let progress := Bot.ReplyText (Bot.checking (Bot.parse_emails text)) in
    let sent := Bot.HttpRequest (Vocabulary.batch_call environ (Bot.parse_emails text)) in
    let w' := snd (Bot.handle_message environ out user_id text w) in
    match Bot.telegram out (Bot.trace w ++ [progress]) with
    | None =>
        Bot.user_check_state w' !! user_id = Some false /\
        exists evs, Bot.trace w' = (Bot.trace w ++ progress :: sent :: evs)%list
    | Some e =>
        Bot.handle_message environ out user_id text w = (inl e, Bot.record progress w)
    end.
Proof.
  intros environ out user_id text w Hflag Hbatch progress sent w'.
  destruct (Bot.telegram out (Bot.trace w ++ [progress])) as [e|] eqn:Htg.
  - unfold Bot.handle_message, mbind, Bot.M_bind, Bot.bind at 1, Bot.get_state.
    rewrite Hflag. cbn [Bot.awaiting default from_option id negb].
    rewrite bool_decide_false by exact Hbatch.
    unfold Bot.bind at 1, Bot.reply_text at 1, Bot.tell. cbn [Bot.record Bot.trace].
    fold progress. by rewrite Htg.
  - subst w'.
    rewrite (FrontFacts.handle_message_sends environ out user_id text w Hflag Hbatch Htg).
    split; [apply FrontFacts.try_except_finally_resets|].
    set (w2 := Bot.record _ (Bot.record _ w)).
    assert (Vocabulary.emits (fun _ => True)
              (Vocabulary.after_post out user_id (Bot.service out (Bot.trace w2)))) as Hemits
      by (apply FrontFacts.emits_after_post; done).
    destruct (Hemits w2) as (evs & E & _).
    exists evs. rewrite E. subst w2. cbn [Bot.record Bot.trace]. by rewrite <- !app_assoc.
Qed.

Lemma C5_witness :
  Bot.user_check_state
    (snd (Bot.handle_message ∅ Vocabulary.unreachable 7 "flag@x.org, active@x.org"
            (Vocabulary.started 7))) !! 7%Z = Some false /\
  Bot.user_check_state
    (snd (Bot.handle_message ∅ (Vocabulary.loopback ∅) 7 "flag@x.org, active@x.org"
            (Vocabulary.started 7))) !! 7%Z = Some false.
Proof.
  split.
  - apply (C5_flag_reset_after_batch_sent ∅ Vocabulary.unreachable 7
             "flag@x.org, active@x.org" (Vocabulary.started 7)).
    + reflexivity.
    + vm_compute. discriminate.
  - apply (C5_flag_reset_after_batch_sent ∅ (Vocabulary.loopback ∅) 7
             "flag@x.org, active@x.org" (Vocabulary.started 7)).
    + reflexivity.
    + vm_compute. discriminate.
Defined.

(** The reply of [format_results] for a mapping of emails to label strings:
    one line per entry, in the order of the mapping. *)
Lemma format_results_lines (results : pydict) :
  Bot.format_results (Vocabulary.as_json results) =
  inr (Str.join Str.nl
         (map (fun kv => Vocabulary.shown (snd kv) +:+ " – " +:+ fst kv) results)).
Proof.
  unfold Bot.format_results, Vocabulary.as_json.
  assert (Bot.render_lines (map (fun kv => (fst kv, JStr (snd kv))) results) =
          inr (map (fun kv => Vocabulary.shown (snd kv) +:+ " – " +:+ fst kv) results))
    as ->; [|done].
  induction results as [|[email label] results IH]; [done|].
  cbn [map fst snd Bot.render_lines]. rewrite IH. reflexivity.
Qed.

(** C7, as stated, fails: an unrecognized label is shown as "Unknown", not
    as "Unknown or Error". *)
Lemma C7_counterexample :
  Bot.format_results (JDict [("a@b.c", JStr "pending")]) = inr "❓ Unknown – a@b.c" /\
  ~ (forall email label : string,
       label <> "yes" -> label <> "no" -> label <> "captcha" ->
       Bot.render_line email (JStr label) =
         inr ("❓ Unknown or Error" +:+ " – " +:+ email)).
Proof.
  split; [reflexivity|].
  intros H. specialize (H "a@b.c" "pending").
  vm_compute in H. discriminate H; discriminate.
Qed.

(** C7, amended.  A label other than the three recognized ones is shown
    with the question icon: the label "error" as "Unknown or Error", every
    other label string as "Unknown"; the line is the shown text, a dash and
    the email. *)
Theorem C7_other_labels_question_icon :
  forall label : string,
    label <> "yes" -> label <> "no" -> label <> "captcha" ->
    Vocabulary.shown label =
      (if String.eqb label "error" then "❓ Unknown or Error" else "❓ Unknown") /\
    (forall email : string,
        Bot.render_line email (JStr label) =
          inr (Vocabulary.shown label +:+ " – " +:+ email)) /\
    (forall email : string,
        Bot.format_results (JDict [(email, JStr label)]) =
          inr (Vocabulary.shown label +:+ " – " +:+ email)).
Proof.
  intros label Hyes Hno Hcaptcha.
  split; [|split; intros email; reflexivity].
  unfold Vocabulary.shown, Bot.status_map. cbn [Dict.get].
  destruct (String.eqb_spec "yes" label) as [<-|_]; [done|].
  destruct (String.eqb_spec "no" label) as [<-|_]; [done|].
  destruct (String.eqb_spec "captcha" label) as [<-|_]; [done|].
  destruct (String.eqb_spec "error" label) as [<-|Hne]; [reflexivity|].
  destruct (String.eqb_spec label "error") as [->|_]; [done|]. reflexivity.
Qed.

Lemma C7_witness :
  Vocabulary.shown "pending" = "❓ Unknown" /\
  Vocabulary.shown "error" = "❓ Unknown or Error".
Proof.
  split.
  - apply (C7_other_labels_question_icon "pending"); discriminate.
  - apply (C7_other_labels_question_icon "error"); discriminate.
Defined.

(** C8: what the start-up does.  The token read at import time is never
    empty, since a missing or empty variable is replaced by the placeholder;
    the start-up therefore never exits and, without the variable, runs the
    bot with the placeholder token. *)
Theorem C8_missing_token_runs_with_placeholder :
  Bot.main ∅ = Bot.RunPolling "your_telegram_bot_token" ["🤖 Bot is running..."] /\
  Bot.main {[ "TELEGRAM_BOT_TOKEN" := "" ]} =
    Bot.RunPolling "your_telegram_bot_token" ["🤖 Bot is running..."] /\
  (forall environ : gmap string string,
      Str.truthy (Bot.TELEGRAM_BOT_TOKEN environ) = true /\
      Bot.main environ =
        Bot.RunPolling (Bot.TELEGRAM_BOT_TOKEN environ) ["🤖 Bot is running..."]).
Proof.
  split; [reflexivity|]. split; [reflexivity|].
  intros environ.
  assert (Str.truthy (Bot.TELEGRAM_BOT_TOKEN environ) = true) as Htoken.
  { unfold Bot.TELEGRAM_BOT_TOKEN, getenv_or.
    destruct (environ !! "TELEGRAM_BOT_TOKEN") as [v|]; [|reflexivity].
    destruct (Str.truthy v) eqn:E; [exact E|reflexivity]. }
  split; [exact Htoken|]. unfold Bot.main. by rewrite Htoken.
Qed.

(** C9, as stated, fails: neither outbound call passes a timeout. *)
Lemma C9_counterexample :
  ~ (forall (out : Bot.outside) (update : Bot.update_like),
       Vocabulary.emits Vocabulary.with_timeout (Bot.status_command out update)) /\
  ~ (forall (environ : gmap string string) (out : Bot.outside)
            (user_id : Z) (text : string),
       Vocabulary.emits Vocabulary.with_timeout
         (Bot.handle_message environ out user_id text)).
Proof.
  split.
  - intros H.
    destruct (H Vocabulary.unreachable (Bot.CallbackQuery 7 "status") (Vocabulary.started 7))
      as (evs & E & F).
    vm_compute in E. subst evs. inversion F as [|? ? Hcall _].
    destruct Hcall as [seconds Hs]. discriminate Hs.
  - intros H.
    destruct (H ∅ Vocabulary.unreachable 7%Z "flag@x.org" (Vocabulary.started 7))
      as (evs & E & F).
    vm_compute in E. subst evs.
    inversion F as [|? ? _ F']. inversion F' as [|? ? Hcall _].
    destruct Hcall as [seconds Hs]. discriminate Hs.
Qed.

(** C9, amended.  The health check and the batch check are made without a
    timeout.  An exception raised by the call (a timeout reported by the
    HTTP library is one) is treated as a failure: the health check answers
    that the backend could not be reached; the batch check logs and renders
    the error and resets the Session Flag. *)
Theorem C9_no_timeout_and_failure_handled :
  forall (environ : gmap string string) (out : Bot.outside)
         (user_id : Z) (text : string) (update : Bot.update_like)
         (w : Bot.world) (e : exn),
    is_Exception e = true ->
    Vocabulary.emits Vocabulary.without_timeout (Bot.status_command out update) /\
    Vocabulary.emits Vocabulary.without_timeout
      (Bot.handle_message environ out user_id text) /\
    (Bot.service out (Bot.trace w ++ [Bot.HttpRequest Vocabulary.status_call]) = inl e ->
     Bot.status_command out update w =
       Bot.respond out update "❌ Could not reach backend."
         (Bot.record (Bot.HttpRequest Vocabulary.status_call) w)) /\
    (Bot.user_check_state w !! user_id = Some true ->
     Bot.parse_emails text <> [] ->
     Bot.telegram out
       (Bot.trace w ++ [Bot.ReplyText (Bot.checking (Bot.parse_emails text))]) = None ->
     Bot.service out
       (Bot.trace w ++
          [Bot.ReplyText (Bot.checking (Bot.parse_emails text));
           Bot.HttpRequest (Vocabulary.batch_call environ (Bot.parse_emails text))])
       = inl e ->
     let w' := snd (Bot.handle_message environ out user_id text w) in
     Bot.user_check_state w' !! user_id = Some false /\
     Bot.trace w' =
       (Bot.trace w ++
          [Bot.ReplyText (Bot.checking (Bot.parse_emails text));
           Bot.HttpRequest (Vocabulary.batch_call environ (Bot.parse_emails text));
           Bot.LogError ("Backend error: " +:+ Bot.str_exn out e);
           Bot.ReplyText ("⚠ Error: " +:+ Bot.str_exn out e)])%list).
Proof.
  intros environ out user_id text update w e Hexc.
  split; [apply FrontFacts.emits_status_command; done|].
  split; [apply FrontFacts.emits_handle_message; done|].
  split.
  - intros Hsvc.
    unfold Bot.status_command, mbind, Bot.M_bind, Bot.bind at 1, Bot.try_except.
    unfold Bot.bind at 1, Bot.requests_get, Bot.request.
    fold Vocabulary.status_call. cbn [Bot.record Bot.trace].
    rewrite Hsvc, Hexc. reflexivity.
  - intros Hflag Hbatch Htg Hsvc w'. subst w'.
    rewrite (FrontFacts.handle_message_sends environ out user_id text w Hflag Hbatch Htg).
    split; [apply FrontFacts.try_except_finally_resets|].
    cbn [Bot.record Bot.trace]. rewrite <- app_assoc. cbn [app].
    rewrite Hsvc.
    unfold Vocabulary.after_post, Bot.try_except_finally, mbind, Bot.M_bind.
    unfold Bot.bind at 1, Bot.lift at 1. rewrite Hexc.
    unfold Bot.bind, Bot.logger_error, Bot.reply_text, Bot.tell, Bot.set_state.
    cbn [Bot.record Bot.trace].
    match goal with
    | |- context [match Bot.telegram out ?tr with _ => _ end] =>
        destruct (Bot.telegram out tr)
    end; cbn [snd Bot.trace Bot.record]; by rewrite <- !app_assoc.
Qed.

Lemma C9_witness :
  Bot.status_command Vocabulary.unreachable (Bot.CallbackQuery 7 "status")
    (Vocabulary.started 7) =
  Bot.respond Vocabulary.unreachable (Bot.CallbackQuery 7 "status")
    "❌ Could not reach backend."
    (Bot.record (Bot.HttpRequest Vocabulary.status_call) (Vocabulary.started 7)) /\
  Bot.user_check_state
    (snd (Bot.handle_message ∅ Vocabulary.unreachable 7 "flag@x.org"
            (Vocabulary.started 7))) !! 7%Z = Some false.
Proof.
  pose proof (C9_no_timeout_and_failure_handled ∅ Vocabulary.unreachable 7
                "flag@x.org" (Bot.CallbackQuery 7 "status") (Vocabulary.started 7)
                (RequestException "Connection refused") eq_refl)
    as (_ & _ & Hstatus & Hbatch).
  split.
  - apply Hstatus. reflexivity.
  - apply Hbatch.
    + reflexivity.
    + vm_compute. discriminate.
    + reflexivity.
    + reflexivity.
Defined.

(* ===================================================================== *)
(** * The model at work *)
(* ===================================================================== *)

Module Examples.
Import Vocabulary.

(** CR LF is one boundary; a final boundary opens no further line. *)
Example splitlines_crlf :
  Str.splitlines (Str.utf8 [97; 13; 10; 98; 10; 10; 99; 10]) = ["a"; "b"; ""; "c"].
Proof. reflexivity. Qed.

(** A no-break space (U+00A0) is stripped, inner blanks stay. *)
Example strip_nbsp :
  Str.strip (Str.utf8 [32; 194; 160; 97; 32; 98; 9; 10]) = "a b".
Proof. reflexivity. Qed.

Example parse_emails_batch :
  forall e,
    In e (Bot.parse_emails ("a@x.org, b@x.org ,a@x.org" +:+ Str.nl +:+ " no-dot@x, plain"))
    <-> In e ["a@x.org"; "b@x.org"].
Proof. intros e. vm_compute. tauto. Qed.

(** An element that is no string makes the embedded service fail. *)
Example check_emails_number :
  Bot.check_emails ∅ [("x-api-key", "my_secure_api_key_123")]
    (Some (JDict [("emails", JList [JStr "flag@x.org"; JInt 3])])) = Raise TypeError.
Proof. reflexivity. Qed.

(** A string under ["emails"] is read character by character. *)
Example check_emails_string :
  Bot.check_emails ∅ [("x-api-key", "my_secure_api_key_123")]
    (Some (JDict [("emails", JStr "ab")])) = Return [("a", "error"); ("b", "error")].
Proof. reflexivity. Qed.

Example format_results_mixed :
  Bot.format_results
    (JDict [("f@x.org", JStr "yes"); ("a@x.org", JStr "no"); ("c@x.org", JStr "captcha");
            ("e@x.org", JStr "error"); ("u@x.org", JStr "pending"); ("n@x.org", JNull)])
  = inr (Str.join Str.nl
           [ "⚠️ Flagged – f@x.org"; "✅ Active – a@x.org"; "🛡 CAPTCHA blocked – c@x.org";
             "❓ Unknown or Error – e@x.org"; "❓ Unknown – u@x.org"; "❓ Unknown – n@x.org" ]).
Proof. reflexivity. Qed.

(** A whole check against the embedded service. *)
Example conversation :
  Bot.trace (snd (Bot.handle_message ∅ (loopback ∅) 7 " inactive_flag@x.org " (started 7)))
  = [ Bot.ReplyText "🔍 Checking 1 emails...";
      Bot.HttpRequest (batch_call ∅ ["inactive_flag@x.org"]);
      Bot.ReplyText "⚠️ Flagged – inactive_flag@x.org" ].
Proof. vm_compute. reflexivity. Qed.

(** The front end's key is the service's key, so the embedded service never
    refuses the front end; a service with another key does, and the error is
    rendered. *)
Example conversation_refused :
  Bot.trace (snd (Bot.handle_message ∅ (loopback {[ "API_KEY" := "other" ]}) 7
                    "a@x.org" (started 7)))
  = [ Bot.ReplyText "🔍 Checking 1 emails...";
      Bot.HttpRequest (batch_call ∅ ["a@x.org"]);
      Bot.LogError "Backend error: error";
      Bot.ReplyText "⚠ Error: error" ].
Proof. vm_compute. reflexivity. Qed.

(** Text sent before a check was started: guidance, and no flag is set. *)
Example text_before_start :
  Bot.handle_message ∅ unreachable 7 "a@x.org"
    {| Bot.user_check_state := ∅; Bot.trace := [] |}
  = (inr tt,
     {| Bot.user_check_state := ∅;
        Bot.trace := [Bot.ReplyText "❗ Please press '✅ Start Email Check' first."] |}).
Proof. reflexivity. Qed.

(** Text without any email: validation error, the flag stays. *)
Example text_without_email :
  Bot.handle_message ∅ unreachable 7 "hello, world" (started 7)
  = (inr tt,
     {| Bot.user_check_state := {[ 7%Z := true ]};
        Bot.trace := [Bot.ReplyText "⚠ Please send valid email addresses."] |}).
Proof. vm_compute. reflexivity. Qed.

(** Cancelling without a session changes nothing but the reply. *)
Example cancel_without_session :
  Bot.button_handler unreachable 7 "cancel"
    {| Bot.user_check_state := ∅; Bot.trace := [] |}
  = (inr tt,
     {| Bot.user_check_state := ∅;
        Bot.trace := [Bot.Answer; Bot.EditMessageText "❌ Email check canceled."] |}).
Proof. reflexivity. Qed.

End Examples.

(* ===================================================================== *)
(** * Further properties of the front end: the outcome of a check *)
(* ===================================================================== *)

Module CheckFacts.
Import Bot Vocabulary Cover.

(** The [try] block replies with what [rendered] gives, or raises it. *)
Lemma try_block_rendered out (r : exn + http_response) (w : world) :
  (response ← lift r;
   raise_for_status response ;;
   results ← response_json response;
   shown ← lift (format_results results);
   reply_text out shown) w
  = (s ← lift (rendered r); reply_text out s) w.
Proof.
  unfold mbind, M_bind, bind, lift, rendered, raise_for_status, response_json.
  destruct r as [e|response]; [done|].
  destruct ((400 <=? status_code response)%Z && (status_code response <? 600)%Z); [done|].
  cbn [ret]. destruct (content response) as [results|]; [|done].
  cbn [ret]. by destruct (format_results results).
Qed.

Lemma after_post_rendered out user_id r w :
  after_post out user_id r w =
  try_except_finally
    (s ← lift (rendered r); reply_text out s)
    (fun e =>
       logger_error ("Backend error: " +:+ str_exn out e) ;;
       reply_text out ("⚠ Error: " +:+ str_exn out e))
    (set_state user_id false) w.
Proof.
  unfold after_post, try_except_finally. by rewrite try_block_rendered.
Qed.

(** The check failed before a reply was made: the error is logged and
    rendered, the flag reset; only the sending of the error reply can still
    fail. *)
Lemma after_post_failure out user_id r w e :
  rendered r = inl e -> is_Exception e = true ->
  let tr := (trace w ++ [LogError ("Backend error: " +:+ str_exn out e);
                         ReplyText ("⚠ Error: " +:+ str_exn out e)])%list in
  after_post out user_id r w =
  (match telegram out tr with Some e' => inl e' | None => inr tt end,
   {| user_check_state := <[user_id := false]> (user_check_state w); trace := tr |}).
Proof.
  intros Hr Hexc tr. rewrite after_post_rendered.
  unfold try_except_finally, mbind, M_bind, bind, lift. rewrite Hr, Hexc.
  unfold logger_error, reply_text, tell, set_state. cbn [record trace user_check_state].
  subst tr. rewrite <- app_assoc. cbn [app].
  destruct (telegram out _); cbn [record trace user_check_state];
    by rewrite <- app_assoc.
Qed.

(** The check succeeded and the reply went through. *)
Lemma after_post_success out user_id r w s :
  rendered r = inr s ->
  telegram out (trace w ++ [ReplyText s]) = None ->
  after_post out user_id r w =
  (inr tt,
   {| user_check_state := <[user_id := false]> (user_check_state w);
      trace := (trace w ++ [ReplyText s])%list |}).
Proof.
  intros Hr Htg. rewrite after_post_rendered.
  unfold try_except_finally, mbind, M_bind, bind, lift. rewrite Hr.
  unfold reply_text, tell, set_state. cbn [record trace user_check_state].
  by rewrite Htg.
Qed.

(** ** [handle_message] outside a check *)

Lemma handle_message_idle environ out user_id text w :
  awaiting (user_check_state w !! user_id) = false ->
  handle_message environ out user_id text w =
  reply_text out "❗ Please press '✅ Start Email Check' first." w.
Proof.
  intros Hidle. unfold handle_message, mbind, M_bind, bind at 1, get_state.
  by rewrite Hidle.
Qed.

Lemma handle_message_no_email environ out user_id text w :
  awaiting (user_check_state w !! user_id) = true ->
  parse_emails text = [] ->
  handle_message environ out user_id text w =
  reply_text out "⚠ Please send valid email addresses." w.
Proof.
  intros Hflag Hnone. unfold handle_message, mbind, M_bind, bind at 1, get_state.
  rewrite Hflag. cbn [negb]. by rewrite bool_decide_true by exact Hnone.
Qed.

Lemma reply_text_world out text w :
  snd (reply_text out text w) = record (ReplyText text) w.
Proof. unfold reply_text, tell. by destruct (telegram out _). Qed.

(** ** The embedded service behind the front end *)

Lemma set_fresh {V : Type} (d : list (string * V)) k v :
  ~ In k (Dict.keys d) -> Dict.set d k v = (d ++ [(k, v)])%list.
Proof.
  unfold Dict.keys. induction d as [|[k0 v0] d IH]; cbn [Dict.set map fst In app]; [done|].
  intros Hnotin. destruct (String.eqb_spec k0 k) as [->|Hne]; [tauto|].
  rewrite IH; [done|tauto].
Qed.

(** On distinct new keys the loop appends one entry per email, in order. *)
Lemma assign_all_fresh f l acc :
  List.NoDup l -> (forall e, In e l -> ~ In e (Dict.keys acc)) ->
  assign_all f l acc = (acc ++ map (fun e => (e, f e)) l)%list.
Proof.
  revert acc. induction l as [|a l IH]; intros acc Hnd Hfresh; cbn [assign_all map].
  - by rewrite app_nil_r.
  - inversion Hnd as [|? ? Ha Hnd']; subst.
    rewrite set_fresh by (apply Hfresh; by left).
    rewrite IH; [by rewrite <- app_assoc|done|].
    intros e He. unfold Dict.keys. rewrite map_app, in_app_iff. cbn [map fst In].
    intros [Hin|[<-|[]]]; [|done]. apply (Hfresh e); [by right|done].
Qed.

(** What the front end renders from the embedded service's answer to its
    own request: one line per email of the batch. *)
Lemma rendered_embedded environ emails :
  List.NoDup emails ->
  rendered (inr (to_http (check_emails environ
                            (call_headers (batch_call environ emails))
                            (json_body (batch_call environ emails)))))
  = inr (Str.join Str.nl (map checked_line emails)).
Proof.
  intros Hnd. cbn [batch_call call_headers json_body].
  rewrite (DictFacts.bot_check_emails_authorized environ _
             [("emails", JList (map JStr emails))] emails);
    [|cbn [Dict.get]; by rewrite String.eqb_refl|reflexivity].
  rewrite assign_all_fresh by (done || intros e _ []).
  cbn [app to_http rendered status_code content].
  rewrite format_results_lines. by rewrite map_map.
Qed.

End CheckFacts.

(** X1.  A text message of a user without a set Session Flag, or one that
    yields no email, gets one reply (the guidance, or the validation error)
    and nothing else happens: no call of the service, no change of any
    flag.  In particular a text without emails leaves the check open. *)
Theorem X1_text_outside_check :
  forall (environ : gmap string string) (out : Bot.outside)
         (user_id : Z) (text : string) (w : Bot.world),
    Bot.awaiting (Bot.user_check_state w !! user_id) = false \/
    Bot.parse_emails text = [] ->
    let msg := if Bot.awaiting (Bot.user_check_state w !! user_id)
               then "⚠ Please send valid email addresses."
               else "❗ Please press '✅ Start Email Check' first." in
    let w' := snd (Bot.handle_message environ out user_id text w) in
    Bot.user_check_state w' = Bot.user_check_state w /\
    Bot.trace w' = (Bot.trace w ++ [Bot.ReplyText msg])%list.
Proof.
  intros environ out user_id text w H msg w'. subst msg w'.
  destruct (Bot.awaiting (Bot.user_check_state w !! user_id)) eqn:Hflag.
  - destruct H as [H|H]; [discriminate|].
    rewrite (CheckFacts.handle_message_no_email _ _ _ _ _ Hflag H),
      CheckFacts.reply_text_world. done.
  - rewrite (CheckFacts.handle_message_idle _ _ _ _ _ Hflag),
      CheckFacts.reply_text_world. done.
Qed.

Lemma X1_witness :
  Bot.trace (snd (Bot.handle_message ∅ Vocabulary.unreachable 7 "hello, world"
                    (Vocabulary.started 7)))
  = [Bot.ReplyText "⚠ Please send valid email addresses."] /\
  Bot.trace (snd (Bot.handle_message ∅ Vocabulary.unreachable 8 "a@x.org"
                    (Vocabulary.started 7)))
  = [Bot.ReplyText "❗ Please press '✅ Start Email Check' first."].
Proof.
  split.
  - apply (X1_text_outside_check ∅ Vocabulary.unreachable 7 "hello, world"
             (Vocabulary.started 7)).
    right. vm_compute. reflexivity.
  - apply (X1_text_outside_check ∅ Vocabulary.unreachable 8 "a@x.org"
             (Vocabulary.started 7)).
    left. reflexivity.
Defined.

(** X2.  A check whose [try] block fails with an [Exception] before the
    result is sent (the call raises, the status is 400..599, the body is not
    JSON, the JSON is no object, a status is a list or an object) ends the
    same way: the error is logged, an error reply with the text of the
    exception is attempted, the Session Flag is false and nothing else is
    sent.  A body that comes with an error status is never looked at. *)
Theorem X2_failed_check_rendered :
  forall (environ : gmap string string) (out : Bot.outside)
         (user_id : Z) (text : string) (w : Bot.world) (e : exn),
    Bot.user_check_state w !! user_id = Some true ->
    Bot.parse_emails text <> [] ->
    let progress := Bot.ReplyText (Bot.checking (Bot.parse_emails text)) in
    let sent := Bot.HttpRequest (Vocabulary.batch_call environ (Bot.parse_emails text)) in
    Bot.telegram out (Bot.trace w ++ [progress]) = None ->
    Cover.rendered (Bot.service out (Bot.trace w ++ [progress; sent])) = inl e ->
    is_Exception e = true ->
    snd (Bot.handle_message environ out user_id text w) =
    {| Bot.user_check_state := <[user_id := false]> (Bot.user_check_state w);
       Bot.trace := (Bot.trace w ++
                       [progress; sent;
                        Bot.LogError ("Backend error: " +:+ Bot.str_exn out e);
                        Bot.ReplyText ("⚠ Error: " +:+ Bot.str_exn out e)])%list |}.
Proof.
  intros environ out user_id text w e Hflag Hbatch progress sent Htg Hr Hexc.
  rewrite (FrontFacts.handle_message_sends environ out user_id text w Hflag Hbatch Htg).
  cbn [Bot.record Bot.trace]. rewrite <- app_assoc. cbn [app]. fold progress sent.
  rewrite (CheckFacts.after_post_failure out user_id _ _ e Hr Hexc).
  cbn [snd Bot.record Bot.trace Bot.user_check_state].
  by rewrite <- !app_assoc.
Qed.

Lemma X2_witness :
  Bot.trace (snd (Bot.handle_message ∅ (Vocabulary.loopback {[ "API_KEY" := "other" ]}) 7
                    "a@x.org" (Vocabulary.started 7)))
  = [ Bot.ReplyText "🔍 Checking 1 emails...";
      Bot.HttpRequest (Vocabulary.batch_call ∅ ["a@x.org"]);
      Bot.LogError "Backend error: error";
      Bot.ReplyText "⚠ Error: error" ].
Proof.
  pose proof (X2_failed_check_rendered ∅ (Vocabulary.loopback {[ "API_KEY" := "other" ]}) 7
                "a@x.org" (Vocabulary.started 7) (HTTPError 401)) as H.
  cbv zeta in H. rewrite H.
  - vm_compute. reflexivity.
  - reflexivity.
  - vm_compute. discriminate.
  - reflexivity.
  - vm_compute. reflexivity.
  - reflexivity.
Defined.

(** X3.  A check whose answer has a status outside 400..599 and a JSON
    object of hashable statuses as body, and whose reply goes through, sends
    exactly the formatted result after the progress reply and the request,
    and leaves the Session Flag false. *)
Theorem X3_successful_check_rendered :
  forall (environ : gmap string string) (out : Bot.outside)
         (user_id : Z) (text : string) (w : Bot.world) (reply : string),
    Bot.user_check_state w !! user_id = Some true ->
    Bot.parse_emails text <> [] ->
    let progress := Bot.ReplyText (Bot.checking (Bot.parse_emails text)) in
    let sent := Bot.HttpRequest (Vocabulary.batch_call environ (Bot.parse_emails text)) in
    Bot.telegram out (Bot.trace w ++ [progress]) = None ->
    Cover.rendered (Bot.service out (Bot.trace w ++ [progress; sent])) = inr reply ->
    Bot.telegram out (Bot.trace w ++ [progress; sent; Bot.ReplyText reply]) = None ->
    Bot.handle_message environ out user_id text w =
    (inr tt,
     {| Bot.user_check_state := <[user_id := false]> (Bot.user_check_state w);
        Bot.trace := (Bot.trace w ++ [progress; sent; Bot.ReplyText reply])%list |}).
Proof.
  intros environ out user_id text w reply Hflag Hbatch progress sent Htg Hr Htg'.
  rewrite (FrontFacts.handle_message_sends environ out user_id text w Hflag Hbatch Htg).
  cbn [Bot.record Bot.trace]. rewrite <- app_assoc. cbn [app]. fold progress sent.
  rewrite (CheckFacts.after_post_success out user_id _ _ reply Hr).
  - cbn [Bot.record Bot.trace Bot.user_check_state]. by rewrite <- !app_assoc.
  - cbn [Bot.record Bot.trace]. by rewrite <- !app_assoc.
Qed.

Lemma X3_witness :
  Bot.handle_message ∅ (Vocabulary.loopback ∅) 7 "flag@x.org" (Vocabulary.started 7) =
  (inr tt,
   {| Bot.user_check_state := <[7%Z := false]> {[ 7%Z := true ]};
      Bot.trace := [ Bot.ReplyText "🔍 Checking 1 emails...";
                     Bot.HttpRequest (Vocabulary.batch_call ∅ ["flag@x.org"]);
                     Bot.ReplyText "⚠️ Flagged – flag@x.org" ] |}).
Proof.
  pose proof (X3_successful_check_rendered ∅ (Vocabulary.loopback ∅) 7
                "flag@x.org" (Vocabulary.started 7) "⚠️ Flagged – flag@x.org") as H.
  cbv zeta in H. rewrite H.
  - vm_compute. reflexivity.
  - reflexivity.
  - vm_compute. discriminate.
  - reflexivity.
  - vm_compute. reflexivity.
  - reflexivity.
Defined.

(** X4.  Front end and embedded service together.  When the request of
    [handle_message] is answered by [check_emails] of the same process (the
    key sent is the key expected, so the request is never refused) and the
    replies go through, the user gets exactly one line per email extracted
    from the text, each with the rendering of the label the substring rule
    gives it, and the Session Flag is false. *)
Theorem X4_check_against_embedded_service :
  forall (environ : gmap string string) (out : Bot.outside)
         (user_id : Z) (text : string) (w : Bot.world),
    Bot.user_check_state w !! user_id = Some true ->
    Bot.parse_emails text <> [] ->
    let call := Vocabulary.batch_call environ (Bot.parse_emails text) in
    let progress := Bot.ReplyText (Bot.checking (Bot.parse_emails text)) in
    let result :=
      Bot.ReplyText (Str.join Str.nl (map Cover.checked_line (Bot.parse_emails text))) in
    Bot.telegram out (Bot.trace w ++ [progress]) = None ->
    Bot.service out (Bot.trace w ++ [progress; Bot.HttpRequest call]) =
      inr (Vocabulary.to_http
             (Bot.check_emails environ (Bot.call_headers call) (Bot.json_body call))) ->
    Bot.telegram out (Bot.trace w ++ [progress; Bot.HttpRequest call; result]) = None ->
    Bot.handle_message environ out user_id text w =
    (inr tt,
     {| Bot.user_check_state := <[user_id := false]> (Bot.user_check_state w);
        Bot.trace := (Bot.trace w ++ [progress; Bot.HttpRequest call; result])%list |}).
Proof.
  intros environ out user_id text w Hflag Hbatch call progress result Htg Hsvc Htg'.
  rewrite (FrontFacts.handle_message_sends environ out user_id text w Hflag Hbatch Htg).
  cbn [Bot.record Bot.trace]. rewrite <- app_assoc. cbn [app]. fold call progress.
  rewrite Hsvc.
  rewrite (CheckFacts.after_post_success out user_id _ _
             (Str.join Str.nl (map Cover.checked_line (Bot.parse_emails text)))).
  - cbn [Bot.record Bot.trace Bot.user_check_state]. by rewrite <- !app_assoc.
  - apply CheckFacts.rendered_embedded, HelperFacts.parse_emails_NoDup.
  - cbn [Bot.record Bot.trace]. by rewrite <- !app_assoc.
Qed.

Lemma X4_witness :
  Bot.handle_message ∅ (Vocabulary.loopback ∅) 7 "active@x.org" (Vocabulary.started 7) =
  (inr tt,
   {| Bot.user_check_state := <[7%Z := false]> {[ 7%Z := true ]};
      Bot.trace := [ Bot.ReplyText "🔍 Checking 1 emails...";
                     Bot.HttpRequest (Vocabulary.batch_call ∅ ["active@x.org"]);
                     Bot.ReplyText "✅ Active – active@x.org" ] |}).
Proof.
  pose proof (X4_check_against_embedded_service ∅ (Vocabulary.loopback ∅) 7
                "active@x.org" (Vocabulary.started 7)) as H.
  cbv zeta in H. rewrite H.
  - vm_compute. reflexivity.
  - reflexivity.
  - vm_compute. discriminate.
  - reflexivity.
  - vm_compute. reflexivity.
  - reflexivity.
Defined.

(** X5.  One check consumes the session: after a text whose batch was sent,
    whatever the service answered, the next text of the same user only gets
    the guidance reply; no second request is made until the check is
    started again. *)
Theorem X5_check_consumes_session :
  forall (environ : gmap string string) (out : Bot.outside)
         (user_id : Z) (text next : string) (w : Bot.world),
    Bot.user_check_state w !! user_id = Some true ->
    Bot.parse_emails text <> [] ->
    Bot.telegram out
      (Bot.trace w ++ [Bot.ReplyText (Bot.checking (Bot.parse_emails text))]) = None ->
    let w1 := snd (Bot.handle_message environ out user_id text w) in
    let w2 := snd (Bot.handle_message environ out user_id next w1) in
    Bot.user_check_state w2 = Bot.user_check_state w1 /\
    Bot.trace w2 =
      (Bot.trace w1 ++
         [Bot.ReplyText "❗ Please press '✅ Start Email Check' first."])%list.
Proof.
  intros environ out user_id text next w Hflag Hbatch Htg w1 w2.
  assert (Bot.user_check_state w1 !! user_id = Some false) as Hreset.
  { subst w1.
    rewrite (FrontFacts.handle_message_sends environ out user_id text w Hflag Hbatch Htg).
    apply FrontFacts.try_except_finally_resets. }
  subst w2. rewrite CheckFacts.handle_message_idle by (by rewrite Hreset).
  by rewrite CheckFacts.reply_text_world.
Qed.

Lemma X5_witness :
  Bot.trace
    (snd (Bot.handle_message ∅ (Vocabulary.loopback ∅) 7 "b@x.org"
            (snd (Bot.handle_message ∅ (Vocabulary.loopback ∅) 7 "flag@x.org"
                    (Vocabulary.started 7)))))
  = (Bot.trace (snd (Bot.handle_message ∅ (Vocabulary.loopback ∅) 7 "flag@x.org"
                       (Vocabulary.started 7)))
       ++ [Bot.ReplyText "❗ Please press '✅ Start Email Check' first."])%list.
Proof.
  apply (X5_check_consumes_session ∅ (Vocabulary.loopback ∅) 7 "flag@x.org" "b@x.org"
           (Vocabulary.started 7)).
  - reflexivity.
  - vm_compute. discriminate.
  - reflexivity.
Defined.

(* ===================================================================== *)
(** * Further properties of the front end: the commands and the flags *)
(* ===================================================================== *)

Module CommandFacts.
Import Bot Vocabulary Cover.

Lemma tell_world out ev w : snd (tell out ev w) = record ev w.
Proof. unfold tell. by destruct (telegram out _). Qed.

(** ** What a handler keeps *)

Section Steps.
Variable R : world -> world -> Prop.
Hypothesis R_refl : forall w, R w w.
Hypothesis R_trans : forall w1 w2 w3, R w1 w2 -> R w2 w3 -> R w1 w3.
Hypothesis R_record : forall ev w, R w (record ev w).

Lemma steps_ret {A : Type} (a : A) : steps R (ret a).
Proof. intros w. apply R_refl. Qed.

Lemma steps_raise {A : Type} (e : exn) : steps R (raise (A := A) e).
Proof. intros w. apply R_refl. Qed.

Lemma steps_lift {A : Type} (r : exn + A) : steps R (lift r).
Proof. intros w. apply R_refl. Qed.

Lemma steps_get_state u : steps R (get_state u).
Proof. intros w. apply R_refl. Qed.

Lemma steps_tell out ev : steps R (tell out ev).
Proof. intros w. rewrite tell_world. apply R_record. Qed.

Lemma steps_logger_error msg : steps R (logger_error msg).
Proof. intros w. apply R_record. Qed.

Lemma steps_request out call : steps R (request out call).
Proof. intros w. apply R_record. Qed.

Lemma steps_bind {A B : Type} (m : M A) (k : A -> M B) :
  steps R m -> (forall a, steps R (k a)) -> steps R (bind m k).
Proof.
  intros Hm Hk w. unfold bind. specialize (Hm w).
  destruct (m w) as [[e|a] w1]; cbn [snd] in *; [done|].
  apply (R_trans _ w1); [done|apply Hk].
Qed.

Lemma steps_try_except {A : Type} (body : M A) (handler : exn -> M A) :
  steps R body -> (forall e, steps R (handler e)) -> steps R (try_except body handler).
Proof.
  intros Hb Hh w. unfold try_except. specialize (Hb w).
  destruct (body w) as [[e|a] w1]; cbn [snd] in *; [|done].
  destruct (is_Exception e); [|done].
  apply (R_trans _ w1); [done|apply Hh].
Qed.

Lemma steps_try_except_finally {A : Type}
    (body : M A) (handler : exn -> M A) (final : M unit) :
  steps R body -> (forall e, steps R (handler e)) -> steps R final ->
  steps R (try_except_finally body handler final).
Proof.
  intros Hb Hh Hf w.
  pose proof (steps_try_except body handler Hb Hh w) as H1.
  unfold try_except_finally. unfold try_except in H1.
  destruct (match body w with
            | (inl e, w') => if is_Exception e then handler e w' else (inl e, w')
            | (inr a, w') => (inr a, w')
            end) as [r w1].
  cbn [snd] in H1. specialize (Hf w1).
  destruct (final w1) as [[e|[]] w2]; cbn [snd] in *; by apply (R_trans _ w1).
Qed.

Lemma steps_respond out update text : steps R (respond out update text).
Proof.
  destruct update as [uid data|uid [|]]; cbn [respond].
  - apply steps_tell.
  - apply steps_tell.
  - apply steps_ret.
Qed.

Lemma steps_status_command out update : steps R (status_command out update).
Proof.
  unfold status_command. apply steps_bind; [|intros msg; apply steps_respond].
  apply steps_try_except; [|intros e; apply steps_ret].
  apply steps_bind; [apply steps_request|intros r; apply steps_ret].
Qed.

Lemma steps_help_command out update : steps R (help_command out update).
Proof. apply steps_respond. Qed.

(** With the [finally] block a step too, [handle_message] is one. *)
Lemma steps_handle_message environ out user_id text :
  steps R (set_state user_id false) ->
  steps R (handle_message environ out user_id text).
Proof.
  intros Hset. unfold handle_message. apply steps_bind; [apply steps_get_state|].
  intros flag. destruct (negb (awaiting flag)); [apply steps_tell|].
  destruct (bool_decide _); [apply steps_tell|].
  apply steps_bind; [apply steps_tell|]. intros _.
  apply steps_try_except_finally; [| |exact Hset].
  - apply steps_bind; [apply steps_request|]. intros response.
    apply steps_bind.
    { unfold raise_for_status. destruct (_ && _); [apply steps_raise|apply steps_ret]. }
    intros _. apply steps_bind.
    { unfold response_json. destruct (content response); [apply steps_ret|apply steps_raise]. }
    intros results. apply steps_bind; [apply steps_lift|]. intros s. apply steps_tell.
  - intros e. apply steps_bind; [apply steps_logger_error|]. intros _. apply steps_tell.
Qed.

End Steps.

Lemma same_flags_refl w : same_flags w w.
Proof. done. Qed.

Lemma same_flags_trans w1 w2 w3 : same_flags w1 w2 -> same_flags w2 w3 -> same_flags w1 w3.
Proof. unfold same_flags. congruence. Qed.

Lemma same_flags_record ev w : same_flags w (record ev w).
Proof. done. Qed.

Lemma same_other_flags_refl u w : same_other_flags u w w.
Proof. done. Qed.

Lemma same_other_flags_trans u w1 w2 w3 :
  same_other_flags u w1 w2 -> same_other_flags u w2 w3 -> same_other_flags u w1 w3.
Proof. intros H1 H2 v Hv. by rewrite H2, H1. Qed.

Lemma same_other_flags_record u ev w : same_other_flags u w (record ev w).
Proof. done. Qed.

Lemma same_other_flags_set u b : steps (same_other_flags u) (set_state u b).
Proof. intros w v Hv. cbn. by apply lookup_insert_ne. Qed.

Lemma same_other_flags_pop u : steps (same_other_flags u) (pop_state u).
Proof. intros w v Hv. cbn. by apply lookup_delete_ne. Qed.

(** The side conditions of the lemmas of [Steps] for the two relations. *)
Ltac flags_side :=
  first [ exact same_flags_refl | exact same_flags_trans | exact same_flags_record
        | exact (same_other_flags_refl _) | exact (same_other_flags_trans _)
        | exact (same_other_flags_record _) ].

Lemma flags_status_command out update : steps same_flags (status_command out update).
Proof. apply steps_status_command; flags_side. Qed.

Lemma flags_help_command out update : steps same_flags (help_command out update).
Proof. apply steps_help_command; flags_side. Qed.

Lemma others_handle_message environ out user_id text :
  steps (same_other_flags user_id) (handle_message environ out user_id text).
Proof. apply steps_handle_message; try flags_side. apply same_other_flags_set. Qed.

Lemma others_check_command out update :
  steps (same_other_flags (user_of update)) (check_command out update).
Proof.
  unfold check_command. apply steps_bind; try flags_side.
  - apply same_other_flags_set.
  - intros _. apply steps_respond; flags_side.
Qed.

Lemma others_cancel_command out update :
  steps (same_other_flags (user_of update)) (cancel_command out update).
Proof.
  unfold cancel_command. apply steps_bind; try flags_side.
  - apply same_other_flags_pop.
  - intros _. apply steps_respond; flags_side.
Qed.

Lemma others_button_handler out uid data :
  steps (same_other_flags uid) (button_handler out uid data).
Proof.
  unfold button_handler. apply steps_bind; try flags_side.
  - apply steps_tell; flags_side.
  - intros _.
    destruct (String.eqb data "check");
      [apply (others_check_command out (CallbackQuery uid data))|].
    destruct (String.eqb data "help"); [apply steps_help_command; flags_side|].
    destruct (String.eqb data "cancel");
      [apply (others_cancel_command out (CallbackQuery uid data))|].
    destruct (String.eqb data "status"); [apply steps_status_command; flags_side|].
    apply steps_ret; flags_side.
Qed.

End CommandFacts.

(** X6.  [status_command] reports from the status alone: "up and running"
    exactly when the call returns with status 200, "returned an error" for
    every other status (another 2xx included), "could not reach" when the
    call raises an [Exception], which never leaves the handler.  It changes
    no Session Flag. *)
Theorem X6_status_command_reports :
  forall (out : Bot.outside) (update : Bot.update_like) (w : Bot.world),
    let w1 := Bot.record (Bot.HttpRequest Vocabulary.status_call) w in
    Bot.user_check_state (snd (Bot.status_command out update w)) = Bot.user_check_state w /\
    Bot.status_command out update w =
      match Bot.service out (Bot.trace w1) with
      | inr r =>
          Bot.respond out update
            (if (Bot.status_code r =? 200)%Z then "✅ Backend is up and running!"
             else "⚠ Backend returned an error.") w1
      | inl e =>
          if is_Exception e
          then Bot.respond out update "❌ Could not reach backend." w1
          else (inl e, w1)
      end.
Proof.
  intros out update w w1. split.
  - apply CommandFacts.flags_status_command.
  - unfold Bot.status_command, mbind, Bot.M_bind, Bot.bind at 1, Bot.try_except.
    unfold Bot.bind at 1, Bot.requests_get, Bot.request.
    fold Vocabulary.status_call. fold w1.
    destruct (Bot.service out (Bot.trace w1)) as [e|r]; [|reflexivity].
    by destruct (is_Exception e).
Qed.

(** X7.  A handler touches the Session Flag of its own user only:
    [handle_message], [check_command], [cancel_command] and
    [button_handler] leave the flag of every other user as it was, on every
    path, and [help_command] changes no flag at all. *)
Theorem X7_handlers_keep_other_flags :
  forall (environ : gmap string string) (out : Bot.outside)
         (user_id : Z) (text data : string) (update : Bot.update_like)
         (w : Bot.world) (u : Z),
    u <> user_id ->
    u <> Bot.user_of update ->
    Bot.user_check_state (snd (Bot.handle_message environ out user_id text w)) !! u
      = Bot.user_check_state w !! u /\
    Bot.user_check_state (snd (Bot.button_handler out user_id data w)) !! u
      = Bot.user_check_state w !! u /\
    Bot.user_check_state (snd (Bot.check_command out update w)) !! u
      = Bot.user_check_state w !! u /\
    Bot.user_check_state (snd (Bot.cancel_command out update w)) !! u
      = Bot.user_check_state w !! u /\
    Bot.user_check_state (snd (Bot.help_command out update w)) = Bot.user_check_state w.
Proof.
  intros environ out user_id text data update w u Hu Hupd.
  split; [|split; [|split; [|split]]].
  - by apply CommandFacts.others_handle_message.
  - by apply CommandFacts.others_button_handler.
  - by apply CommandFacts.others_check_command.
  - by apply CommandFacts.others_cancel_command.
  - apply CommandFacts.flags_help_command.
Qed.

Lemma X7_witness :
  Bot.user_check_state
    (snd (Bot.handle_message ∅ (Vocabulary.loopback ∅) 7 "flag@x.org"
            {| Bot.user_check_state := {[ 7%Z := true; 8%Z := true ]}; Bot.trace := [] |}))
    !! 8%Z = Some true /\
  Bot.user_check_state
    (snd (Bot.button_handler (Vocabulary.loopback ∅) 7 "cancel"
            {| Bot.user_check_state := {[ 7%Z := true; 8%Z := true ]}; Bot.trace := [] |}))
    !! 8%Z = Some true.
Proof.
  pose proof (X7_handlers_keep_other_flags ∅ (Vocabulary.loopback ∅) 7 "flag@x.org" "cancel"
                (Bot.CallbackQuery 7 "cancel")
                {| Bot.user_check_state := {[ 7%Z := true; 8%Z := true ]}; Bot.trace := [] |}
                8%Z) as H.
  destruct H as (H1 & H2 & _); [discriminate|discriminate|].
  split; [rewrite H1|rewrite H2]; reflexivity.
Defined.

(** X8.  [check_command] sets the user's Session Flag before it replies, so
    the flag is true afterwards even when the reply fails; pressing the
    button again changes nothing. *)
Theorem X8_check_command_opens_session :
  forall (out : Bot.outside) (update : Bot.update_like) (w : Bot.world),
    let w1 := snd (Bot.check_command out update w) in
    Bot.user_check_state w1 =
      <[Bot.user_of update := true]> (Bot.user_check_state w) /\
    Bot.awaiting (Bot.user_check_state w1 !! Bot.user_of update) = true /\
    Bot.user_check_state (snd (Bot.check_command out update w1)) = Bot.user_check_state w1.
Proof.
  intros out update w w1.
  assert (forall w0, Bot.user_check_state (snd (Bot.check_command out update w0)) =
                     <[Bot.user_of update := true]> (Bot.user_check_state w0)) as Hset.
  { intros w0. unfold Bot.check_command, mbind, Bot.M_bind, Bot.bind, Bot.set_state.
    destruct update as [uid data|uid [|]]; cbn [Bot.respond Bot.user_of].
    - unfold Bot.tell. by destruct (Bot.telegram out _).
    - unfold Bot.reply_text, Bot.tell. by destruct (Bot.telegram out _).
    - done. }
  subst w1. rewrite !Hset. split; [done|]. split.
  - by rewrite lookup_insert_eq.
  - apply insert_insert_eq.
Qed.

(** X9.  [cancel_command] removes the user's Session Flag before it replies
    (nothing to remove is no error), and a text sent afterwards only gets
    the guidance reply. *)
Theorem X9_cancel_command_closes_session :
  forall (environ : gmap string string) (out : Bot.outside)
         (update : Bot.update_like) (text : string) (w : Bot.world),
    let w1 := snd (Bot.cancel_command out update w) in
    Bot.user_check_state w1 = delete (Bot.user_of update) (Bot.user_check_state w) /\
    Bot.handle_message environ out (Bot.user_of update) text w1 =
      Bot.reply_text out "❗ Please press '✅ Start Email Check' first." w1.
Proof.
  intros environ out update text w w1.
  assert (Bot.user_check_state w1 =
          delete (Bot.user_of update) (Bot.user_check_state w)) as Hdel.
  { subst w1. unfold Bot.cancel_command, mbind, Bot.M_bind, Bot.bind, Bot.pop_state.
    destruct update as [uid data|uid [|]]; cbn [Bot.respond Bot.user_of].
    - unfold Bot.tell. by destruct (Bot.telegram out _).
    - unfold Bot.reply_text, Bot.tell. by destruct (Bot.telegram out _).
    - done. }
  split; [exact Hdel|].
  apply CheckFacts.handle_message_idle. by rewrite Hdel, lookup_delete_eq.
Qed.

(** X10.  The menu and the button handler agree: the callback data of the
    four buttons of [start] are the four data [button_handler] knows, and
    each is answered and then handed to its command; a callback with any
    other data is answered and nothing more; when the answer fails, no
    command runs. *)
Theorem X10_menu_buttons_reach_commands :
  forall (out : Bot.outside) (uid : Z) (w : Bot.world),
    let w1 := Bot.record Bot.Answer w in
    let commands :=
      [ ("check", Bot.check_command out); ("help", Bot.help_command out);
        ("cancel", Bot.cancel_command out); ("status", Bot.status_command out) ] in
    map Menu.callback_data Menu.buttons = map fst commands /\
    (forall data,
        Bot.button_handler out uid data w =
          match Bot.telegram out (Bot.trace w1) with
          | Some e => (inl e, w1)
          | None =>
              match Dict.get commands data with
              | Some command => command (Bot.CallbackQuery uid data) w1
              | None => (inr tt, w1)
              end
          end).
Proof.
  intros out uid w w1 commands. split; [reflexivity|].
  intros data. unfold Bot.button_handler, mbind, Bot.M_bind, Bot.bind at 1, Bot.tell.
  fold w1. destruct (Bot.telegram out (Bot.trace w1)) as [e|]; [reflexivity|].
  subst commands. cbn [Dict.get].
  rewrite (String.eqb_sym "check"), (String.eqb_sym "help"),
    (String.eqb_sym "cancel"), (String.eqb_sym "status").
  destruct (String.eqb data "check"); [reflexivity|].
  destruct (String.eqb data "help"); [reflexivity|].
  destruct (String.eqb data "cancel"); [reflexivity|].
  destruct (String.eqb data "status"); reflexivity.
Qed.

(* ===================================================================== *)
(** * Further properties of the services and the helpers *)
(* ===================================================================== *)

Module ServiceFacts.
Import Vocabulary Cover.

Lemma render_lines_outcomes (items : list (string * json)) :
  Bot.render_lines items =
  if forallb hashable (map snd items) then inr (map line_of items) else inl TypeError.
Proof.
  induction items as [|[email status] items IH]; [done|].
  cbn [Bot.render_lines map snd forallb]. rewrite IH.
  destruct status; cbn [hashable andb Bot.render_line Bot.render_status]; try done;
    by destruct (forallb hashable (map snd items)).
Qed.

(** One element that is no string makes the whole loop fail. *)
Lemma check_loop_non_string (l : list json) (x : json) :
  In x l -> (forall s, x <> JStr s) ->
  forall acc, Bot.check_loop l acc = inl TypeError.
Proof.
  intros Hin Hx. induction l as [|a l IH]; [destruct Hin|].
  intros acc. destruct Hin as [->|Hin].
  - destruct x; try reflexivity. by destruct (Hx s).
  - destruct a; try reflexivity. cbn [Bot.check_loop]. by apply IH.
Qed.

(** Every entry written by the loop carries the label of its key. *)
Lemma check_loop_labels (l : list json) :
  forall acc results,
    Bot.check_loop l acc = inr results ->
    (forall k v, Dict.get acc k = Some v -> v = Bot.classify k) ->
    forall k v, Dict.get results k = Some v -> v = Bot.classify k.
Proof.
  induction l as [|a l IH]; intros acc results Hloop Hacc.
  - cbn in Hloop. by inversion Hloop; subst.
  - destruct a; try discriminate. cbn [Bot.check_loop] in Hloop.
    apply (IH _ _ Hloop). intros k v.
    destruct (string_dec s k) as [->|Hne].
    + rewrite DictFacts.get_set_eq. by intros [= <-].
    + rewrite DictFacts.get_set_ne by done. apply Hacc.
Qed.

Lemma classify_range email : In (Bot.classify email) ["yes"; "no"; "error"].
Proof.
  unfold Bot.classify. destruct (Str.str_in "flag" email); [cbn; tauto|].
  destruct (Str.str_in "active" email); cbn; tauto.
Qed.

Lemma database_range key :
  In (default "no" (Dict.get Main.SIMULATED_DATABASE key)) ["yes"; "no"; "captcha"; "error"].
Proof.
  unfold Main.SIMULATED_DATABASE. cbn [Dict.get].
  repeat (match goal with
          | |- context [String.eqb ?a key] => destruct (String.eqb a key)
          end; [cbn; tauto|]).
  cbn; tauto.
Qed.

(** The configured secret is never empty. *)
Lemma getenv_or_truthy environ name fallback :
  Str.truthy fallback = true -> Str.truthy (getenv_or environ name fallback) = true.
Proof.
  intros Hf. unfold getenv_or. destruct (environ !! name) as [v|]; [|done].
  by destruct (Str.truthy v) eqn:E.
Qed.

Lemma filter_none {A : Type} (f : A -> bool) (l : list A) :
  (forall x, In x l -> f x = false) -> List.filter f l = [].
Proof.
  induction l as [|a l IH]; intros H; cbn [List.filter]; [done|].
  rewrite (H a) by (by left). apply IH. intros x Hx. apply H. by right.
Qed.

(** A wanted line holds an '@' and a '.' of the text. *)
Lemma wanted_in_text text line :
  In line (Str.splitlines (Str.replace_char ","%char Str.LF text)) ->
  Bot.wanted line = true ->
  Str.str_in "@" text = true /\ Str.str_in "." text = true.
Proof.
  intros Hin Hw. unfold Bot.wanted in Hw. apply andb_prop in Hw as [Hat Hdot].
  apply StrFacts.str_in_char in Hat, Hdot.
  assert (forall c, c <> Str.LF -> In c (Str.chars line) -> In c (Str.chars text)) as Hsub.
  { intros c Hc Hcl. destruct (StrFacts.splitlines_chars _ _ _ Hin Hcl) as [Hcr _].
    apply StrFacts.replace_char_chars in Hcr as [->|[_ ?]]; [done|done]. }
  split; apply StrFacts.str_in_char; apply Hsub; (discriminate || done).
Qed.

End ServiceFacts.

(** X11.  [format_results] fails only as a whole: with [AttributeError] on
    anything but an object, with [TypeError] when some status is a list or
    an object; otherwise it returns exactly one line per entry, in the order
    of the mapping, a status that is no label string being shown as
    "Unknown". *)
Theorem X11_format_results_outcomes :
  forall results : json,
    Bot.format_results results =
    match results with
    | JDict items =>
        if forallb Cover.hashable (map snd items)
        then inr (Str.join Str.nl (map Cover.line_of items))
        else inl TypeError
    | _ => inl AttributeError
    end.
Proof.
  intros results. destruct results; try reflexivity.
  unfold Bot.format_results. rewrite ServiceFacts.render_lines_outcomes.
  by destruct (forallb Cover.hashable (map snd items)).
Qed.

(** X12.  The embedded service answers a batch all or nothing: one element
    of the list that is not a string makes the authorized request fail with
    [TypeError] (status 500), and no mapping is returned, not even for the
    strings of the batch. *)
Theorem X12_non_string_fails_whole_batch :
  forall (environ : gmap string string) (hs : headers)
         (data : list (string * json)) (l : list json) (x : json),
    Dict.get hs "x-api-key" = Some (Bot.API_KEY environ) ->
    Dict.get data "emails" = Some (JList l) ->
    In x l ->
    (forall s, x <> JStr s) ->
    Bot.check_emails environ hs (Some (JDict data)) = Raise TypeError /\
    status_of (Bot.check_emails environ hs (Some (JDict data))) = 500%Z /\
    classification_of (Bot.check_emails environ hs (Some (JDict data))) = None.
Proof.
  intros environ hs data l x Hkey Hdata Hin Hx.
  assert (Bot.check_emails environ hs (Some (JDict data)) = Raise TypeError) as ->; [|done].
  unfold Bot.check_emails. rewrite bool_decide_true by exact Hkey.
  cbn [negb]. rewrite Hdata. cbn [default from_option id Bot.iterate].
  by rewrite (ServiceFacts.check_loop_non_string l x Hin Hx).
Qed.

Lemma X12_witness :
  Bot.check_emails ∅ [("x-api-key", "my_secure_api_key_123")]
    (Some (JDict [("emails", JList [JStr "flag@x.org"; JNull; JStr "active@x.org"])]))
  = Raise TypeError.
Proof.
  apply (X12_non_string_fails_whole_batch ∅ [("x-api-key", "my_secure_api_key_123")]
           [("emails", JList [JStr "flag@x.org"; JNull; JStr "active@x.org"])]
           [JStr "flag@x.org"; JNull; JStr "active@x.org"] JNull).
  - reflexivity.
  - reflexivity.
  - simpl. auto.
  - discriminate.
Defined.

(** X13.  Whatever the body, every entry of a mapping returned by the
    embedded service carries the label the substring rule gives its key; the
    labels are "yes", "no" and "error" only, never "captcha". *)
Theorem X13_embedded_labels :
  forall (environ : gmap string string) (hs : headers) (body : option json)
         (results : pydict) (email label : string),
    Bot.check_emails environ hs body = Return results ->
    Dict.get results email = Some label ->
    label = Bot.classify email /\
    In label ["yes"; "no"; "error"] /\
    label <> "captcha".
Proof.
  intros environ hs body results email label Hret Hget.
  assert (label = Bot.classify email) as ->.
  { unfold Bot.check_emails in Hret.
    destruct (negb _); [discriminate|].
    destruct body as [[| | | | | |data]|]; try discriminate.
    destruct (Bot.iterate _) as [e|l]; [discriminate|].
    destruct (Bot.check_loop l []) as [e|results'] eqn:Hloop; [discriminate|].
    inversion Hret; subst.
    apply (ServiceFacts.check_loop_labels l [] results Hloop); [discriminate|done]. }
  split; [done|]. split; [apply ServiceFacts.classify_range|].
  pose proof (ServiceFacts.classify_range email) as Hr. cbn in Hr.
  intros Heq. rewrite Heq in Hr. intuition discriminate.
Qed.

Lemma X13_witness :
  "error" = Bot.classify "b" /\ In "error" ["yes"; "no"; "error"] /\ "error" <> "captcha".
Proof.
  apply (X13_embedded_labels ∅ [("x-api-key", "my_secure_api_key_123")]
           (Some (JDict [("emails", JStr "ab")]))
           [("a", "error"); ("b", "error")] "b" "error").
  - reflexivity.
  - reflexivity.
Defined.

(** X14.  main.py labels every submitted email by the table entry of its
    lower-cased form, "no" when there is none, while the key stays as
    submitted: emails that differ only in case get the same label under
    different keys.  The labels are "yes", "no", "captcha" and "error". *)
Theorem X14_dictionary_labels :
  forall (str_lower : string -> string) (environ : gmap string string)
         (hs : headers) (payload : Main.EmailCheckRequest) (email : string),
    Dict.get hs "x-api-key" = Some (Main.API_KEY environ) ->
    In email (Main.emails payload) ->
    exists (results : pydict) (label : string),
      Main.check_emails str_lower environ hs payload = Return results /\
      Dict.get results email = Some label /\
      label = default "no" (Dict.get Main.SIMULATED_DATABASE (str_lower email)) /\
      In label ["yes"; "no"; "captcha"; "error"] /\
      (forall other, In other (Main.emails payload) ->
                     str_lower other = str_lower email ->
                     Dict.get results other = Some label).
Proof.
  intros str_lower environ hs payload email Hkey Hin.
  eexists. eexists.
  split; [by apply DictFacts.main_check_emails_authorized|].
  destruct (DictFacts.assign_all_spec
              (fun e => default "no" (Dict.get Main.SIMULATED_DATABASE (str_lower e)))
              (Main.emails payload) []) as (_ & _ & Hlabel & _).
  split; [by apply Hlabel|]. split; [reflexivity|].
  split; [apply ServiceFacts.database_range|].
  intros other Hother Hsame. rewrite (Hlabel other Hother). by rewrite Hsame.
Qed.

Lemma X14_witness :
  exists (results : pydict) (label : string),
    Main.check_emails Str.ascii_lower ∅ [("x-api-key", "my_secure_api_key_123")]
      {| Main.emails := ["Blocked@Example.com"; "blocked@example.com"] |} = Return results /\
    Dict.get results "Blocked@Example.com" = Some label /\
    label = default "no" (Dict.get Main.SIMULATED_DATABASE
                            (Str.ascii_lower "Blocked@Example.com")) /\
    In label ["yes"; "no"; "captcha"; "error"] /\
    (forall other, In other ["Blocked@Example.com"; "blocked@example.com"] ->
                   Str.ascii_lower other = Str.ascii_lower "Blocked@Example.com" ->
                   Dict.get results other = Some label).
Proof.
  apply (X14_dictionary_labels Str.ascii_lower ∅ [("x-api-key", "my_secure_api_key_123")]
           {| Main.emails := ["Blocked@Example.com"; "blocked@example.com"] |}
           "Blocked@Example.com").
  - reflexivity.
  - simpl. auto.
Defined.

(** X15.  The configured secret is never empty, in any environment (an
    unset or empty [API_KEY] gives the built-in default): a request with an
    empty [x-api-key] header is refused by both services. *)
Theorem X15_empty_key_never_authorizes :
  forall (environ : gmap string string),
    Str.truthy (Bot.API_KEY environ) = true /\
    Str.truthy (Main.API_KEY environ) = true /\
    (forall body : option json,
        Bot.check_emails environ [("x-api-key", "")] body =
          JSONResponse [("error", "Unauthorized")] 401) /\
    (forall (str_lower : string -> string) (payload : Main.EmailCheckRequest),
        Main.check_emails str_lower environ [("x-api-key", "")] payload =
          Raise (HTTPException 403 "Invalid API key")).
Proof.
  intros environ.
  assert (Str.truthy (getenv_or environ "API_KEY" "my_secure_api_key_123") = true) as Hkey
    by (by apply ServiceFacts.getenv_or_truthy).
  assert (Some "" <> Some (getenv_or environ "API_KEY" "my_secure_api_key_123")) as Hne.
  { intros [= Heq]. rewrite <- Heq in Hkey. discriminate. }
  split; [exact Hkey|]. split; [exact Hkey|]. split.
  - intros body. unfold Bot.check_emails, Bot.API_KEY. cbn [Dict.get].
    rewrite String.eqb_refl. by rewrite bool_decide_false by exact Hne.
  - intros str_lower payload. unfold Main.check_emails, Main.API_KEY. cbn [Dict.get].
    rewrite String.eqb_refl. by rewrite bool_decide_false by exact Hne.
Qed.

(** X16.  A text without '@', or without '.', yields no email at all. *)
Theorem X16_parse_emails_needs_at_and_dot :
  forall text : string,
    Str.str_in "@" text = false \/ Str.str_in "." text = false ->
    Bot.parse_emails text = [].
Proof.
  intros text H. unfold Bot.parse_emails.
  rewrite ServiceFacts.filter_none; [apply elements_empty|].
  intros line Hin. destruct (Bot.wanted line) eqn:Hw; [|done].
  destruct (ServiceFacts.wanted_in_text _ _ Hin Hw) as [Hat Hdot].
  destruct H as [H|H]; congruence.
Qed.

Lemma X16_witness :
  Bot.parse_emails "alice at example.org, bob at example.org" = [].
Proof.
  apply X16_parse_emails_needs_at_and_dot. left. reflexivity.
Defined.

(* ===================================================================== *)
(** * Further properties of [parse_emails]: entries parse to themselves *)
(* ===================================================================== *)

Module StableFacts.
Import Str Vocabulary Cover StrFacts.

Lemma str_app_empty_r a : a +:+ "" = a.
Proof. apply chars_inj. rewrite chars_app. apply app_nil_r. Qed.

Lemma app_empty_inv a b : a +:+ b = "" -> b = "".
Proof. destruct a; [done|discriminate]. Qed.

Lemma linebreaks_nonempty w : In w linebreaks -> w <> "".
Proof.
  intros Hin ->. revert Hin. unfold linebreaks. cbn. intuition discriminate.
Qed.

(** A string with a last character [c], split in two with a non-empty
    second part: the second part ends with [c]. *)
Lemma snoc_split cur c a b :
  cur +:+ String c "" = a +:+ b -> b <> "" ->
  exists b', b = b' +:+ String c "" /\ cur = a +:+ b'.
Proof.
  revert cur. induction a as [|x a IH]; intros cur Heq Hb.
  - exists cur. by split.
  - destruct cur as [|y cur]; cbn in Heq.
    + inversion Heq as [[Hx Hrest]]. symmetry in Hrest.
      by apply app_empty_inv in Hrest.
    + inversion Heq as [[Hx Hrest]]. destruct (IH cur Hrest Hb) as (b' & -> & ->).
      by exists b'.
Qed.

(** No line boundary starts inside a line produced by the scan. *)
Lemma splitlines_go_unbroken skip cur s :
  (skip = 0 -> forall a b, cur = a +:+ b -> b <> "" ->
               first_match linebreaks (b +:+ s) = None) ->
  (skip <> 0 -> cur = "") ->
  forall line, In line (splitlines_go skip cur s) -> unbroken line.
Proof.
  assert (forall l t,
            (forall a b, l = a +:+ b -> b <> "" -> first_match linebreaks (b +:+ t) = None) ->
            unbroken l) as Hcur.
  { intros l t H a b Heq. destruct b as [|c b].
    - apply first_match_empty, linebreaks_nonempty.
    - apply first_match_prefix_None with (b := t). by apply (H a). }
  assert (forall t a b, "" = a +:+ b -> b <> "" ->
                        first_match linebreaks (b +:+ t) = None) as Hempty.
  { intros t a b Heq Hb. symmetry in Heq. by apply app_empty_inv in Heq. }
  revert skip cur. induction s as [|c r IH]; intros skip cur H0 Hskip line;
    cbn [splitlines_go].
  - destruct (String.eqb cur "") eqn:E; [intros []|]. intros [<-|[]].
    destruct skip as [|k].
    + by apply (Hcur cur ""), H0.
    + rewrite (Hskip ltac:(done)) in E. discriminate.
  - destruct skip as [|k].
    + destruct (first_match linebreaks (String c r)) as [[w t]|] eqn:E.
      * intros [<-|Hin].
        -- by apply (Hcur cur (String c r)), H0.
        -- apply (IH (String.length w - 1) ""); [intros _; apply Hempty|done|done].
      * apply IH; [|done]. intros _ a b Heq Hb.
        destruct (snoc_split _ _ _ _ Heq Hb) as (b' & -> & ->).
        rewrite str_app_assoc. cbn [append].
        destruct b' as [|y b']; [exact E|]. by apply (H0 eq_refl a).
    + apply IH; [intros _|intros _; by apply Hskip].
      rewrite (Hskip ltac:(done)). apply Hempty.
Qed.

Lemma splitlines_unbroken s line : In line (splitlines s) -> unbroken line.
Proof.
  apply splitlines_go_unbroken; [|done].
  intros _ a b Heq Hb. symmetry in Heq. by apply app_empty_inv in Heq.
Qed.

(** A string is its stripped form between what was stripped. *)
Lemma strip_infix s : exists p q, s = p +:+ strip s +:+ q.
Proof.
  unfold strip, rstrip.
  destruct (lstrip_fuel_split whitespace (String.length s) s) as (p & Hp & _).
  fold (lstrip_by whitespace s) in Hp. fold (lstrip s) in Hp.
  destruct (lstrip_fuel_split (map String.rev whitespace)
              (String.length (String.rev (lstrip s))) (String.rev (lstrip s)))
    as (q & Hq & _).
  fold (lstrip_by (map String.rev whitespace) (String.rev (lstrip s))) in Hq.
  apply (f_equal String.rev) in Hq. rewrite str_rev_involutive, str_rev_app in Hq.
  exists p, (String.rev q). by rewrite <- Hq.
Qed.

Lemma unbroken_infix p e q : unbroken (p +:+ e +:+ q) -> unbroken e.
Proof.
  intros H a b ->. apply first_match_prefix_None with (b := q).
  apply (H (p +:+ a)). by rewrite !str_app_assoc.
Qed.

(** An unbroken string is one line. *)
Lemma splitlines_go_one cur s :
  unbroken s ->
  splitlines_go 0 cur s = if String.eqb (cur +:+ s) "" then [] else [cur +:+ s].
Proof.
  revert cur. induction s as [|c r IH]; intros cur Hs; cbn [splitlines_go].
  - by rewrite str_app_empty_r.
  - rewrite (Hs "" (String c r) eq_refl). rewrite IH.
    + by rewrite str_app_assoc.
    + intros a b ->. by apply (Hs (String c a)).
Qed.

Lemma replace_char_absent old new s :
  ~ In old (chars s) -> replace_char old new s = s.
Proof.
  induction s as [|c r IH]; [done|]. rewrite chars_cons. cbn [replace_char In].
  intros H. destruct (Ascii.eqb_spec c old) as [->|_]; [tauto|].
  rewrite IH; [done|tauto].
Qed.

Lemma lstrip_by_trimmed table s : first_match table s = None -> lstrip_by table s = s.
Proof.
  intros H. unfold lstrip_by. destruct (String.length s); cbn [lstrip_fuel]; [done|].
  by rewrite H.
Qed.

(** Stripping a string that neither starts nor ends with whitespace gives
    it back. *)
Lemma strip_trimmed_id s :
  first_match whitespace s = None ->
  first_match (map String.rev whitespace) (String.rev s) = None ->
  strip s = s.
Proof.
  intros Hl Hr. unfold strip, rstrip, lstrip.
  rewrite (lstrip_by_trimmed _ _ Hl), (lstrip_by_trimmed _ _ Hr).
  apply str_rev_involutive.
Qed.

End StableFacts.

(** X17.  Extraction is stable: every entry returned by [parse_emails],
    given to [parse_emails] again, comes back as the only entry.  (An entry
    holds no comma and no line boundary and is trimmed, so nothing is cut or
    stripped the second time.) *)
Theorem X17_parse_emails_stable :
  forall (text e : string),
    In e (Bot.parse_emails text) ->
    Bot.parse_emails e = [e].
Proof.
  intros text e He.
  apply HelperFacts.parse_emails_In in He as (line & Hin & Hw & ->).
  set (e := Str.strip line).
  assert (Bot.wanted e = true) as Hwe.
  { unfold Bot.wanted in *. apply andb_prop in Hw as [Hat Hdot].
    apply StrFacts.str_in_char in Hat, Hdot.
    apply andb_true_intro. split; apply StrFacts.str_in_char;
      by apply StrFacts.strip_keeps. }
  assert (Str.replace_char ","%char Str.LF e = e) as Hrep.
  { apply StableFacts.replace_char_absent. intros Hc. apply StrFacts.strip_sub in Hc.
    by destruct (HelperFacts.line_no_separator _ _ _ Hin Hc). }
  assert (Cover.unbroken e) as Hunb.
  { destruct (StableFacts.strip_infix line) as (p & q & Hline).
    apply (StableFacts.unbroken_infix p e q). fold e in Hline. rewrite <- Hline.
    by apply (StableFacts.splitlines_unbroken _ _ Hin). }
  assert (Str.strip e = e) as Hstrip.
  { destruct (StrFacts.strip_trimmed line) as [Hl Hr].
    by apply StableFacts.strip_trimmed_id. }
  assert (e <> "") as Hne.
  { intros Heq. rewrite Heq in Hwe. discriminate. }
  unfold Bot.parse_emails. rewrite Hrep. unfold Str.splitlines.
  rewrite (StableFacts.splitlines_go_one "" e Hunb). change ("" +:+ e) with e.
  destruct (String.eqb_spec e "") as [?|_]; [done|].
  cbn [List.filter]. rewrite Hwe. cbn [map list_to_set foldr]. rewrite Hstrip.
  rewrite (right_id_L ∅ (∪)). apply elements_singleton.
Qed.

Lemma X17_witness :
  Bot.parse_emails "a@x.org" = ["a@x.org"].
Proof.
  apply (X17_parse_emails_stable " a@x.org , b@x.org").
  vm_compute. auto.
Defined.

(* ===================================================================== *)
(** * Further properties of [parse_emails]: a separator joins two texts *)
(* ===================================================================== *)

Module JoinFacts.
Import Str Vocabulary Cover StrFacts.

Lemma replace_char_app old new a b :
  replace_char old new (a +:+ b) = replace_char old new a +:+ replace_char old new b.
Proof.
  induction a as [|c a IH]; [done|].
  change (String c a +:+ b) with (String c (a +:+ b)).
  cbn [replace_char]. rewrite IH. reflexivity.
Qed.

(** Comparisons of two known characters are evaluated. *)
Ltac eval_eqb :=
  repeat match goal with
         | |- context [Ascii.eqb ?a ?b] =>
             let v := eval vm_compute in (Ascii.eqb a b) in
             match v with
             | true => change (Ascii.eqb a b) with true
             | false => change (Ascii.eqb a b) with false
             end
         end.

(** Case analysis on the comparisons of a known character with [c]. *)
Ltac split_eqb c :=
  match goal with
  | |- context [Ascii.eqb ?k c] => destruct (Ascii.eqb_spec k c) as [<-|?]
  end.

(** The boundary found at the head of [s] when a line feed follows [s]: the
    one found in [s] alone, except that a final carriage return takes the
    line feed with it. *)
Lemma first_match_before_nl (s y : string) :
  s <> "" ->
  match first_match linebreaks s with
  | Some (w, t) =>
      (s = utf8 [13] /\
       first_match linebreaks (s +:+ nl +:+ y) = Some (utf8 [13; 10], y)) \/
      first_match linebreaks (s +:+ nl +:+ y) = Some (w, t +:+ nl +:+ y)
  | None => first_match linebreaks (s +:+ nl +:+ y) = None
  end.
Proof.
  intros Hs.
  assert (linebreaks =
          [ String "013" (String "010" ""); String "010" ""; String "013" "";
            String "011" ""; String "012" ""; String "028" ""; String "029" "";
            String "030" ""; String "194" (String "133" "");
            String "226" (String "128" (String "168" ""));
            String "226" (String "128" (String "169" "")) ]) as -> by reflexivity.
  destruct s as [|c1 [|c2 [|c3 r]]]; [done| | |].
  - change (String c1 "" +:+ nl +:+ y) with (String c1 (String "010" y)).
    cbn [first_match strip_prefix].
    repeat first [ progress eval_eqb | progress cbn [first_match strip_prefix]
                 | split_eqb c1 ];
      first [ done | by right | by left ].
  - change (String c1 (String c2 "") +:+ nl +:+ y)
      with (String c1 (String c2 (String "010" y))).
    cbn [first_match strip_prefix].
    repeat first [ progress eval_eqb | progress cbn [first_match strip_prefix]
                 | split_eqb c1 | split_eqb c2 ];
      first [ done | by right ].
  - change (String c1 (String c2 (String c3 r)) +:+ nl +:+ y)
      with (String c1 (String c2 (String c3 (r +:+ nl +:+ y)))).
    cbn [first_match strip_prefix].
    repeat first [ progress eval_eqb | progress cbn [first_match strip_prefix]
                 | split_eqb c1 | split_eqb c2 | split_eqb c3 ];
      first [ done | by right ].
Qed.

Lemma first_match_nl y : first_match linebreaks (String LF y) = Some (nl, y).
Proof. reflexivity. Qed.

(** The non-empty lines of two texts joined by a line feed are those of the
    first and those of the second. *)
Lemma splitlines_go_join y line :
  line <> "" ->
  forall x skip cur,
    skip <= String.length x ->
    In line (splitlines_go skip cur (x +:+ nl +:+ y)) <->
    In line (splitlines_go skip cur x) \/ In line (splitlines y).
Proof.
  intros Hline. induction x as [|c r IH]; intros skip cur Hskip.
  - destruct skip; [|cbn in Hskip; lia].
    change ("" +:+ nl +:+ y) with (String LF y).
    cbn [splitlines_go]. rewrite first_match_nl. cbn [nl String.length Nat.sub].
    fold (splitlines y). destruct (String.eqb_spec cur "") as [->|Hcur]; cbn [In].
    + split; [intros [?|?]; [done|by right]|intros [[]|?]; by right].
    + tauto.
  - change (String c r +:+ nl +:+ y) with (String c (r +:+ nl +:+ y)).
    cbn [splitlines_go]. destruct skip as [|k].
    + change (String c (r +:+ nl +:+ y)) with (String c r +:+ nl +:+ y).
      pose proof (first_match_before_nl (String c r) y ltac:(done)) as Hm.
      destruct (first_match linebreaks (String c r)) as [[w t]|] eqn:E.
      * destruct Hm as [[Hcr Hm]|Hm]; rewrite Hm.
        -- injection Hcr as -> ->.
           change (String.length (utf8 [13; 10]) - 1) with 1.
           change ("" +:+ nl +:+ y) with (String LF y). cbn [splitlines_go].
           fold (splitlines y). change (String.eqb "" "") with true.
           cbn [In]. tauto.
        -- destruct (first_match_Some _ _ _ _ E) as [_ Hsplit].
           apply (f_equal String.length) in Hsplit.
           rewrite str_length_app in Hsplit. cbn [String.length] in Hsplit.
           cbn [In]. rewrite IH by lia. tauto.
      * rewrite Hm. apply IH. lia.
    + apply IH. cbn [String.length] in Hskip. lia.
Qed.

Lemma splitlines_join x y line :
  line <> "" ->
  In line (splitlines (x +:+ nl +:+ y)) <-> In line (splitlines x) \/ In line (splitlines y).
Proof. intros Hline. apply splitlines_go_join; [done|lia]. Qed.

Lemma wanted_nonempty line : Bot.wanted line = true -> line <> "".
Proof. by intros H ->. Qed.

End JoinFacts.

(** X18.  A comma or a line feed separates: the emails extracted from two
    texts joined by one of them are those extracted from the first and those
    extracted from the second (a carriage return before the separator makes
    no difference). *)
Theorem X18_parse_emails_of_joined_texts :
  forall (a b e : string),
    (In e (Bot.parse_emails (a +:+ "," +:+ b)) <->
       In e (Bot.parse_emails a) \/ In e (Bot.parse_emails b)) /\
    (In e (Bot.parse_emails (a +:+ Str.nl +:+ b)) <->
       In e (Bot.parse_emails a) \/ In e (Bot.parse_emails b)).
Proof.
  intros a b e.
  assert (forall sep,
            Str.replace_char ","%char Str.LF sep = Str.nl ->
            In e (Bot.parse_emails (a +:+ sep +:+ b)) <->
            In e (Bot.parse_emails a) \/ In e (Bot.parse_emails b)) as Hsep.
  { intros sep Hrep. rewrite !HelperFacts.parse_emails_In.
    rewrite !JoinFacts.replace_char_app, Hrep. split.
    - intros (line & Hin & Hw & ->).
      apply JoinFacts.splitlines_join in Hin; [|by apply JoinFacts.wanted_nonempty].
      destruct Hin as [Hin|Hin]; [left|right]; by exists line.
    - intros [(line & Hin & Hw & ->)|(line & Hin & Hw & ->)]; exists line;
        (split; [|done]);
        (apply JoinFacts.splitlines_join; [by apply JoinFacts.wanted_nonempty|tauto]). }
  split; apply Hsep; reflexivity.
Qed.
